(** * Version history, sanitizer and export services

    A shallow embedding of [backend/services/versionHistory.js],
    [backend/services/exportService.js] and of
    [SecurityMiddleware.sanitizeInput] ([backend/middleware/security.js]),
    with the properties of the revision log, the line diff, the sanitizer
    and the text and Markdown exporters.

    JavaScript strings are sequences of UTF-16 code units; a code unit is
    a number [N].  The in-memory [Map] of the service and the [metadata]
    objects are finite maps ([gmap]); the arrays of revisions are lists in
    stored order. *)

From Stdlib Require Import ZArith NArith Ascii String DecimalString DecimalPos.
From stdpp Require Import gmap list sorting.

Local Open Scope Z_scope.

(** ** JavaScript strings *)

Abbreviation jsstring := (list N).

(** The code units of an ASCII literal. *)
Definition lit (s : string) : jsstring :=
  N_of_ascii <$> list_ascii_of_string s.

Definition LF : N := 10%N.
Definition quot : N := 34%N.
Definition apos : N := 39%N.
Definition backtick : N := 96%N.
Definition semicolon : N := 59%N.

(** [!s] for a string: only the empty string is falsy. *)
Definition falsy (s : jsstring) : bool :=
  match s with [] => true | _ => false end.

(** White space of [String.prototype.trim] and of the regular expression
    class [\s] (WhiteSpace and LineTerminator code points). *)
Definition isWhiteSpace (c : N) : bool :=
  ((9 <=? c) && (c <=? 13) || (c =? 32) || (c =? 160) || (c =? 5760)
   || (8192 <=? c) && (c <=? 8202) || (c =? 8232) || (c =? 8233)
   || (c =? 8239) || (c =? 8287) || (c =? 12288) || (c =? 65279))%N.

Fixpoint trimStart (s : jsstring) : jsstring :=
  match s with
  | [] => []
  | c :: r => if isWhiteSpace c then trimStart r else s
  end.

Definition trimEnd (s : jsstring) : jsstring := reverse (trimStart (reverse s)).

Definition trim (s : jsstring) : jsstring := trimEnd (trimStart s).

(** [s.split(sep)] for a one-character separator: never the empty array. *)
Fixpoint split_char (sep : N) (s : jsstring) : list jsstring :=
  match s with
  | [] => [[]]
  | c :: r =>
      if (c =? sep)%N then [] :: split_char sep r
      else match split_char sep r with
           | h :: t => (c :: h) :: t
           | [] => [[c]]
           end
  end.

(** [s.split(/\s+/)]: the pieces between maximal runs of white space.
    [in_run] tells that the previous character was white space. *)
Fixpoint split_ws_from (in_run : bool) (s : jsstring) : list jsstring :=
  match s with
  | [] => [[]]
  | c :: r =>
      if isWhiteSpace c then
        if in_run then split_ws_from true r else [] :: split_ws_from true r
      else match split_ws_from false r with
           | h :: t => (c :: h) :: t
           | [] => [[c]]
           end
  end.

Definition split_ws (s : jsstring) : list jsstring := split_ws_from false s.

(** [pieces.join(sep)]. *)
Fixpoint join (sep : jsstring) (pieces : list jsstring) : jsstring :=
  match pieces with
  | [] => []
  | [p] => p
  | p :: rest => p ++ sep ++ join sep rest
  end.

(** ** Numbers *)

(** A number value as [Number::toString] reads it (ECMA-262, 6.1.6.1.20):
    not a number, an infinity, a zero, or a finite number other than
    zero given by its sign, by the integer [s] written with its k
    significant decimal digits, as few as identify the number, and by the
    exponent [n]; its absolute value is s × 10^(n - k).  One half is
    [Finite false 5 0], and 10^21 is [Finite false 1 22]. *)
Inductive Number :=
| NotANumber
| Infinite (negative : bool)
| Zero
| Finite (negative : bool) (s : positive) (n : Z).

(** The decimal digits of a positive integer. *)
Definition digitsOf (s : positive) : jsstring :=
  lit (NilEmpty.string_of_uint (Pos.to_uint s)).

Definition zeros (count : Z) : jsstring := repeat 48%N (Z.to_nat count).

(** Steps 6 to 10 of [Number::toString] in radix 10: plain digits up to
    21 integral digits and down to 6 leading fractional zeros, and the
    exponent form otherwise. *)
Definition finiteToString (s : positive) (n : Z) : jsstring :=
  let digits := digitsOf s in
  let k := Z.of_nat (length digits) in
  if (k <=? n) && (n <=? 21) then digits ++ zeros (n - k)
  else if (0 <? n) && (n <=? 21)
  then take (Z.to_nat n) digits ++ lit "." ++ drop (Z.to_nat n) digits
  else if (-6 <? n) && (n <=? 0) then lit "0." ++ zeros (- n) ++ digits
  else
    let exponent :=
      (if n - 1 <? 0 then lit "-" else lit "+") ++ digitsOf (Z.to_pos (Z.abs (n - 1))) in
    match digits with
    | [] => []
    | [d] => [d] ++ lit "e" ++ exponent
    | d :: fraction => [d] ++ lit "." ++ fraction ++ lit "e" ++ exponent
    end.

(** [Number::toString(x, 10)], which is [String(x)] and [x.toString()]. *)
Definition NumberToString (x : Number) : jsstring :=
  match x with
  | NotANumber => lit "NaN"
  | Infinite negative => (if negative then lit "-" else []) ++ lit "Infinity"
  | Zero => lit "0"
  | Finite negative s n => (if negative then lit "-" else []) ++ finiteToString s n
  end.

(** Taking the zeros off the end of the digits of [s], [t] counting
    them. *)
Fixpoint significant (fuel : nat) (s : positive) (t : Z) : positive * Z :=
  match fuel with
  | O => (s, t)
  | S fuel =>
      if Z.pos s mod 10 =? 0
      then significant fuel (Z.to_pos (Z.pos s / 10)) (t + 1)
      else (s, t)
  end.

(** The number value of an integer whose digits, up to the zeros at
    their end, are the significant ones: every integer up to 2^53 in
    absolute value, and so every time value. *)
Definition Number_of_Z (z : Z) : Number :=
  let finite negative p :=
    let '(s, t) := significant (Pos.size_nat p) p 0 in
    Finite negative s (Z.of_nat (length (digitsOf s)) + t) in
  match z with
  | Z0 => Zero
  | Zpos p => finite false p
  | Zneg p => finite true p
  end.

(** [n.toString()] for an integral number value, as [Date.now()] is. *)
Definition Number_toString (n : Z) : jsstring := NumberToString (Number_of_Z n).

(** ** Values handed to the sanitizer *)

(** The values of a JSON body, with [undefined] for a member that is
    absent.  [JsObject] is an object that prints as [[object Object]]:
    one without a member named toString or valueOf. *)

#[warnings="-register-all"] Inductive JsValue :=
| JsUndefined
| JsNull
| JsBool (b : bool)
| JsNumber (x : Number)
| JsString (s : jsstring)
| JsObject
| JsArray (items : list JsValue).

(** [String(v)]: an array joins its elements with commas, [null] and
    [undefined] elements printing as nothing. *)
Fixpoint ToString (v : JsValue) : jsstring :=
  match v with
  | JsUndefined => lit "undefined"
  | JsNull => lit "null"
  | JsBool true => lit "true"
  | JsBool false => lit "false"
  | JsNumber x => NumberToString x
  | JsString s => s
  | JsObject => lit "[object Object]"
  | JsArray items =>
      join (lit ",")
        (map (fun e => match e with
                       | JsUndefined | JsNull => []
                       | _ => ToString e
                       end) items)
  end.

(** [!!v]: [undefined], [null], [false], zero, [NaN] and the empty string
    are falsy. *)
Definition ToBoolean (v : JsValue) : bool :=
  match v with
  | JsUndefined | JsNull => false
  | JsBool b => b
  | JsNumber NotANumber | JsNumber Zero => false
  | JsNumber _ => true
  | JsString s => negb (falsy s)
  | JsObject | JsArray _ => true
  end.

(** ** The sanitizer *)

(** [validator.escape] of validator.js: the characters [&], double and
    single quote, [<], [>], [/], backslash and back quote become HTML
    entities. *)
Definition escape_char (c : N) : jsstring :=
  if (c =? 38)%N then lit "&amp;"
  else if (c =? quot)%N then lit "&quot;"
  else if (c =? apos)%N then lit "&#x27;"
  else if (c =? 60)%N then lit "&lt;"
  else if (c =? 62)%N then lit "&gt;"
  else if (c =? 47)%N then lit "&#x2F;"
  else if (c =? 92)%N then lit "&#x5C;"
  else if (c =? backtick)%N then lit "&#96;"
  else [c].

Definition validator_escape (s : jsstring) : jsstring :=
  concat (escape_char <$> s).

(** The character class of the first [replace]: single quote, double
    quote, back quote and semicolon. *)
Definition isQuoteOrSemicolon (c : N) : bool :=
  ((c =? apos) || (c =? quot) || (c =? backtick) || (c =? semicolon))%N.

(** The character class of the second [replace]: code units 0x00 to 0x1F
    and 0x7F. *)
Definition isControl (c : N) : bool := ((c <=? 31) || (c =? 127))%N.

(** [s.replace(re, '')] for a global single-character class. *)
Definition remove_all (class : N → bool) (s : jsstring) : jsstring :=
  List.filter (fun c => negb (class c)) s.

(** ** Revisions, errors and the store *)

(** Values found in a [metadata] object. *)
Inductive MetaValue :=
| MString (s : jsstring)
| MNumber (n : Z)
| MDate (t : Z).

#[global] Instance MetaValue_eq_dec : EqDecision MetaValue.
Proof. solve_decision. Defined.

(** A revision object.  [v_timestamp] is the [Date] in milliseconds. *)
Record Version := mkVersion {
  v_id : jsstring;
  v_documentId : jsstring;
  v_content : jsstring;
  v_userId : jsstring;
  v_action : jsstring;
  v_timestamp : Z;
  v_metadata : gmap jsstring MetaValue
}.

#[global] Instance Version_eq_dec : EqDecision Version.
Proof. solve_decision. Defined.

(** The messages of the errors thrown. *)
Inductive Error :=
| DocumentIdAndContentRequired   (* Document ID and content are required *)
| DocumentIdRequired             (* Document ID is required *)
| DocumentIdAndVersionIdRequired (* Document ID and version ID are required *)
| DocumentIdAndBothVersionIdsRequired
| OneOrBothVersionsNotFound      (* One or both versions not found *)
| VersionNotFound                (* Version not found *)
| FailedToExportToMarkdown
| FailedToExportToText.

Inductive result (A : Type) :=
| Ok (a : A)
| Throw (e : Error).
Arguments Ok {A} a.
Arguments Throw {A} e.

(** The two readings of the clock taken by one call of [saveVersion]:
    [Date.now()] for the id and [new Date()] for the timestamp. *)
Record Clock := mkClock { Date_now : Z; new_Date : Z }.

(** [this.versions]: document id to array of revisions, in stored order. *)
Abbreviation Store := (gmap jsstring (list Version)).

(** A method of the service: it reads and updates the store and returns or
    throws. *)
Definition M (A : Type) : Type := Store → result A * Store.

Definition ret {A} (a : A) : M A := fun st => (Ok a, st).
Definition throw {A} (e : Error) : M A := fun st => (Throw e, st).
Definition bind {A B} (m : M A) (k : A → M B) : M B :=
  fun st => match m st with
            | (Ok a, st') => k a st'
            | (Throw e, st') => (Throw e, st')
            end.
Definition getStore : M Store := fun st => (Ok st, st).
Definition putStore (st' : Store) : M unit := fun _ => (Ok tt, st').

Notation "'let*' x := m 'in' k" := (bind m (fun x => k))
  (at level 10, x pattern, m at level 100, k at level 200).

(** ** Array helpers *)

(** [Array.prototype.sort(compareFn)] is stable; for a consistent
    comparator its result is the one of this insertion sort: an element
    goes before the first one it does not compare greater than. *)
Fixpoint sort_insert {A} (compareFn : A → A → Z) (x : A) (l : list A) : list A :=
  match l with
  | [] => [x]
  | y :: r =>
      if compareFn x y <=? 0 then x :: y :: r
      else y :: sort_insert compareFn x r
  end.

Fixpoint Array_sort {A} (compareFn : A → A → Z) (l : list A) : list A :=
  match l with
  | [] => []
  | x :: r => sort_insert compareFn x (Array_sort compareFn r)
  end.

(** [l.slice(start)]: a negative [start] counts from the end. *)
Definition Array_slice {A} (start : Z) (l : list A) : list A :=
  let len := Z.of_nat (length l) in
  let k := if start <? 0 then Z.max (len + start) 0 else Z.min start len in
  drop (Z.to_nat k) l.

(** [l.find(v => v.id === versionId)]. *)
Definition find_version (versionId : jsstring) (l : list Version) : option Version :=
  List.find (fun v => bool_decide (v_id v = versionId)) l.

(** The comparator of [getVersions]:
    [new Date(b.timestamp) - new Date(a.timestamp)]. *)
Definition byTimestampDesc (a b : Version) : Z := v_timestamp b - v_timestamp a.

(** ** The diff of [compareVersions] *)

Record Differences := mkDifferences {
  added : list jsstring;
  removed : list jsstring;
  addedCount : nat;
  removedCount : nat;
  totalChanges : nat
}.

Record Comparison := mkComparison {
  version1 : Version;
  version2 : Version;
  differences : Differences
}.

(** [lines.includes(line)]. *)
Definition includes (lines : list jsstring) (line : jsstring) : bool :=
  bool_decide (line ∈ lines).

(** The line diff computed in the body of [compareVersions] from the
    contents of the two revisions. *)
Definition diffLines (content1 content2 : jsstring) : Differences :=
  let lines1 := split_char LF content1 in
  let lines2 := split_char LF content2 in
  let added := List.filter (fun line => negb (includes lines1 line)) lines2 in
  let removed := List.filter (fun line => negb (includes lines2 line)) lines1 in
  {| added := added;
     removed := removed;
     addedCount := length added;
     removedCount := length removed;
     totalChanges := (length added + length removed)%nat |}.

(** ** The services *)

Section Service.

(** [DOMPurify.sanitize] with the fixed allow-list of [sanitizeInput]
    (tags b, i, em, strong, u, br, p; no attribute), and
    [validator.escape]: library functions from strings to strings. *)
Variable purify : jsstring → jsstring.
Variable escape : jsstring → jsstring.

Definition sanitizeInput (input : JsValue) : jsstring :=
  match input with
  | JsString s =>
      let sanitized := purify s in
      let sanitized := remove_all isQuoteOrSemicolon sanitized in
      let sanitized := remove_all isControl sanitized in
      trim sanitized
  | _ => escape (ToString input)
  end.

(** [sanitizedContent.split(/\s+/).filter(word => word.length > 0).length] *)
Definition wordCount (sanitizedContent : jsstring) : nat :=
  length (List.filter (fun word => (0 <? length word)%nat) (split_ws sanitizedContent)).

(** [{...metadata, wordCount, characterCount, lineCount}] *)
Definition withStats (metadata : gmap jsstring MetaValue) (sanitizedContent : jsstring)
  : gmap jsstring MetaValue :=
  <[lit "lineCount" := MNumber (Z.of_nat (length (split_char LF sanitizedContent)))]>
    (<[lit "characterCount" := MNumber (Z.of_nat (length sanitizedContent))]>
       (<[lit "wordCount" := MNumber (Z.of_nat (wordCount sanitizedContent))]> metadata)).

(** [userId || 'anonymous'] *)
Definition orAnonymous (userId : JsValue) : JsValue :=
  if ToBoolean userId then userId else JsString (lit "anonymous").

(** The default of the parameter [action = 'edit'], taken when the
    argument is [undefined]. *)
Definition orEdit (action : JsValue) : JsValue :=
  match action with
  | JsUndefined => JsString (lit "edit")
  | _ => action
  end.

(** [documentVersions.push(version)] followed by the retention step
    [if (documentVersions.length > 50) documentVersions.shift()]. *)
Definition push_capped (documentVersions : list Version) (version : Version) : list Version :=
  let documentVersions := documentVersions ++ [version] in
  if (50 <? length documentVersions)%nat then tail documentVersions else documentVersions.

(** The object literal [version] built by [saveVersion]. *)
Definition newVersion (documentId : jsstring) (content userId action : JsValue)
    (metadata : gmap jsstring MetaValue) (clock : Clock) : Version :=
  let sanitizedContent := sanitizeInput content in
  {| v_id := Number_toString (Date_now clock);
     v_documentId := documentId;
     v_content := sanitizedContent;
     v_userId := sanitizeInput (orAnonymous userId);
     v_action := sanitizeInput (orEdit action);
     v_timestamp := new_Date clock;
     v_metadata := withStats metadata sanitizedContent |}.

(** [saveVersion(documentId, content, userId, action = 'edit', metadata = {})].
    The document id is a route parameter, a string; [content], [userId]
    and [action] are whatever the body of the request holds, [undefined]
    when absent; [metadata] is an object. *)
Definition saveVersion (documentId : jsstring) (content userId action : JsValue)
    (metadata : gmap jsstring MetaValue) (clock : Clock) : M Version :=
  if falsy documentId || negb (ToBoolean content) then throw DocumentIdAndContentRequired
  else
    let version := newVersion documentId content userId action metadata clock in
    let* st := getStore in
    let documentVersions := default [] (st !! documentId) in
    let* _ := putStore (<[documentId := push_capped documentVersions version]> st) in
    ret version.

(** [getVersions(documentId)]: [sort] works in place, on the array held by
    the store when the document is known, on a fresh empty array
    otherwise. *)
Definition getVersions (documentId : jsstring) : M (list Version) :=
  if falsy documentId then throw DocumentIdRequired
  else
    let* st := getStore in
    match st !! documentId with
    | Some versions =>
        let sorted := Array_sort byTimestampDesc versions in
        let* _ := putStore (<[documentId := sorted]> st) in
        ret sorted
    | None => ret []
    end.

(** [getVersion(documentId, versionId)]: [None] is [null]. *)
Definition getVersion (documentId versionId : jsstring) : M (option Version) :=
  if falsy documentId || falsy versionId then throw DocumentIdAndVersionIdRequired
  else
    let* st := getStore in
    let versions := default [] (st !! documentId) in
    ret (find_version versionId versions).

(** [getLatestVersion(documentId)]: [versions[0] || null]. *)
Definition getLatestVersion (documentId : jsstring) : M (option Version) :=
  if falsy documentId then throw DocumentIdRequired
  else
    let* versions := getVersions documentId in
    ret (head versions).

Definition compareVersions (documentId versionId1 versionId2 : jsstring) : M Comparison :=
  if falsy documentId || falsy versionId1 || falsy versionId2
  then throw DocumentIdAndBothVersionIdsRequired
  else
    let* st := getStore in
    let versions := default [] (st !! documentId) in
    match find_version versionId1 versions, find_version versionId2 versions with
    | Some v1, Some v2 =>
        ret {| version1 := v1; version2 := v2;
               differences := diffLines (v_content v1) (v_content v2) |}
    | _, _ => throw OneOrBothVersionsNotFound
    end.

Definition restoreVersion (documentId versionId : jsstring) (userId : JsValue)
    (clock : Clock) : M Version :=
  if falsy documentId || falsy versionId then throw DocumentIdAndVersionIdRequired
  else
    let* found := getVersion documentId versionId in
    match found with
    | None => throw VersionNotFound
    | Some version =>
        saveVersion documentId (JsString (v_content version)) userId
          (JsString (lit "restore"))
          (<[lit "originalTimestamp" := MDate (v_timestamp version)]>
             (<[lit "restoredFrom" := MString versionId]> ∅))
          clock
    end.

(** [cleanupOldVersions(documentId, keepCount = 10)] for an integral
    [keepCount]. *)
Definition cleanupOldVersions (documentId : jsstring) (keepCount : Z) : M unit :=
  if falsy documentId then throw DocumentIdRequired
  else
    let* st := getStore in
    match st !! documentId with
    | None => ret tt
    | Some versions =>
        if Z.of_nat (length versions) <=? keepCount then ret tt
        else
          let recentVersions := Array_slice (- keepCount) versions in
          putStore (<[documentId := recentVersions]> st)
    end.

(** *** Runs of the version store *)

(** The calls a client can make.  [getVersionStats] and
    [exportVersionHistory] read the log through [getVersions] and touch
    the store in no other way: for the store they are [OpGetVersions]. *)
Inductive Op :=
| OpSaveVersion (documentId : jsstring) (content userId action : JsValue)
    (metadata : gmap jsstring MetaValue) (clock : Clock)
| OpGetVersions (documentId : jsstring)
| OpGetVersion (documentId versionId : jsstring)
| OpGetLatestVersion (documentId : jsstring)
| OpCompareVersions (documentId versionId1 versionId2 : jsstring)
| OpRestoreVersion (documentId versionId : jsstring) (userId : JsValue)
    (clock : Clock)
| OpCleanupOldVersions (documentId : jsstring) (keepCount : Z).

(** The store after a call, whether it returned or threw. *)
Definition exec (op : Op) (st : Store) : Store :=
  match op with
  | OpSaveVersion d c u a m clock => snd (saveVersion d c u a m clock st)
  | OpGetVersions d => snd (getVersions d st)
  | OpGetVersion d v => snd (getVersion d v st)
  | OpGetLatestVersion d => snd (getLatestVersion d st)
  | OpCompareVersions d v1 v2 => snd (compareVersions d v1 v2 st)
  | OpRestoreVersion d v u clock => snd (restoreVersion d v u clock st)
  | OpCleanupOldVersions d k => snd (cleanupOldVersions d k st)
  end.

(** The revision a call created, if any. *)
Definition created (op : Op) (st : Store) : list Version :=
  match op with
  | OpSaveVersion d c u a m clock =>
      match fst (saveVersion d c u a m clock st) with Ok v => [v] | Throw _ => [] end
  | OpRestoreVersion d v u clock =>
      match fst (restoreVersion d v u clock st) with Ok v => [v] | Throw _ => [] end
  | _ => []
  end.

(** A run from the empty store: the store reached, and every revision
    created, in creation order. *)
Definition step (w : Store * list Version) (op : Op) : Store * list Version :=
  (exec op w.1, w.2 ++ created op w.1).

Definition run (ops : list Op) : Store * list Version :=
  fold_left step ops (∅, []).

(** *** The export service *)

(** [JSON.stringify] of an array of strings. *)
Variable JSON_stringify : list jsstring → jsstring.

Record ExportOptions := mkExportOptions {
  includeMetadata : bool;
  includeFrontmatter : bool;
  title : option jsstring;
  author : option jsstring;
  tags : option (list jsstring);
  category : option jsstring
}.

(** What one export call reads from outside: the ISO time stamps of
    [generateFilename] and of [createFrontmatter], the locale date and
    time of the header or footer, and whether [fs.writeFile] succeeded. *)
Record ExportEnv := mkExportEnv {
  filenameISOString : jsstring;
  frontmatterISOString : jsstring;
  localeDateString : jsstring;
  localeTimeString : jsstring;
  writeFile_ok : bool
}.

(** The result object, without [filePath] and [size]. *)
Record ExportResult := mkExportResult {
  e_filename : jsstring;
  e_contentType : jsstring;
  e_content : jsstring
}.

(** [value || fallback] for an optional string. *)
Definition orElse (value : option jsstring) (fallback : jsstring) : jsstring :=
  match value with
  | Some s => if falsy s then fallback else s
  | None => fallback
  end.

(** [iso.replace(/[:.]/g, '-')] *)
Definition dashed (iso : jsstring) : jsstring :=
  (fun c => if ((c =? 58) || (c =? 46))%N then 45%N else c) <$> iso.

Definition generateFilename (env : ExportEnv) (extension : jsstring) : jsstring :=
  lit "export-" ++ dashed (filenameISOString env) ++ lit "." ++ extension.

Definition createFrontmatter (options : ExportOptions) (env : ExportEnv) : jsstring :=
  let yaml :=
    join [LF]
      [ lit "title: " ++ orElse (title options) (lit "Exported Document");
        lit "date: " ++ frontmatterISOString env;
        lit "author: " ++ orElse (author options) (lit "Meet with AI");
        lit "tags: " ++ JSON_stringify (default [] (tags options));
        lit "category: " ++ orElse (category options) (lit "export") ] in
  lit "---" ++ [LF] ++ yaml ++ [LF] ++ lit "---".

Definition createMetadataFooter (options : ExportOptions) (env : ExportEnv) : jsstring :=
  lit "---" ++ [LF]
  ++ lit "*Exported from Meet with AI*" ++ [LF]
  ++ lit "*Date: " ++ localeDateString env ++ lit "*" ++ [LF]
  ++ lit "*Time: " ++ localeTimeString env ++ lit "*".

Definition createTextHeader (options : ExportOptions) (env : ExportEnv) : jsstring :=
  lit "Title: " ++ orElse (title options) (lit "Exported Document") ++ [LF]
  ++ lit "Date: " ++ localeDateString env ++ [LF]
  ++ lit "Time: " ++ localeTimeString env ++ [LF]
  ++ lit "Author: " ++ orElse (author options) (lit "Meet with AI") ++ [LF]
  ++ [LF]
  ++ lit "---".

Definition exportToMarkdown (content : jsstring) (options : ExportOptions)
    (env : ExportEnv) : result ExportResult :=
  let sanitizedContent := sanitizeInput (JsString content) in
  let filename := generateFilename env (lit "md") in
  let markdownContent := sanitizedContent in
  let markdownContent :=
    if includeFrontmatter options
    then createFrontmatter options env ++ [LF; LF] ++ sanitizedContent
    else markdownContent in
  let markdownContent :=
    if includeMetadata options
    then markdownContent ++ [LF; LF] ++ createMetadataFooter options env
    else markdownContent in
  if writeFile_ok env
  then Ok {| e_filename := filename;
             e_contentType := lit "text/markdown";
             e_content := markdownContent |}
  else Throw FailedToExportToMarkdown.

Definition exportToText (content : jsstring) (options : ExportOptions)
    (env : ExportEnv) : result ExportResult :=
  let sanitizedContent := sanitizeInput (JsString content) in
  let filename := generateFilename env (lit "txt") in
  let textContent := sanitizedContent in
  let textContent :=
    if includeMetadata options
    then createTextHeader options env ++ [LF; LF] ++ sanitizedContent
    else textContent in
  if writeFile_ok env
  then Ok {| e_filename := filename;
             e_contentType := lit "text/plain";
             e_content := textContent |}
  else Throw FailedToExportToText.

(** *** Sample data *)

Definition doc : jsstring := lit "doc".

(** The revision that saving the text x in [doc] at clock reading [n]
    creates when the purifier leaves that text alone. *)
Definition revision (n : Z) : Version :=
  {| v_id := Number_toString n;
     v_documentId := doc;
     v_content := lit "x";
     v_userId := lit "anonymous";
     v_action := lit "edit";
     v_timestamp := n;
     v_metadata := withStats ∅ (lit "x") |}.

(** A log at the retention cap: revisions 1 to 50 in creation order. *)
Definition full_log : list Version := revision <$> seqZ 1 50.

(** Saving the text x in [doc] at clock reading [n]. *)
Definition save_x (n : Z) : Op :=
  OpSaveVersion doc (JsString (lit "x")) JsUndefined JsUndefined ∅ (mkClock n n).

(** Fifty saves at readings 1 to 50, a listing, and one more save. *)
Definition eviction_run : list Op :=
  (save_x <$> seqZ 1 50) ++ [OpGetVersions doc; save_x 51].

(** ** Predicates used to state the properties *)

(** No quote, semicolon or control character anywhere, and no white
    space at either end. *)
Definition stripped (s : jsstring) : bool :=
  forallb (fun c => negb (isQuoteOrSemicolon c) && negb (isControl c)) s
  && match head s with Some c => negb (isWhiteSpace c) | None => true end
  && match last s with Some c => negb (isWhiteSpace c) | None => true end.

(** Newest first: a revision is followed only by revisions that are not
    newer. *)
Definition newestFirst (a b : Version) : Prop := v_timestamp b ≤ v_timestamp a.

(** The revisions of [l] with timestamp [t], in the order of [l]. *)
Definition atTime (t : Z) (l : list Version) : list Version :=
  filter (λ v, v_timestamp v = t) l.

(** What holds of the store and of the revisions created, all along a
    run: no log is longer than 50, and revisions of one timestamp are
    stored in the order of their creation. *)
Definition store_inv (w : Store * list Version) : Prop :=
  ∀ d log, w.1 !! d = Some log →
    (length log ≤ 50)%nat ∧ ∀ t, atTime t log `sublist_of` w.2.

(** The order of [getVersions] with ties of timestamp resolved towards
    the revision inserted last: along every run the result is newest
    first, revisions of one timestamp come in the reverse of their order
    of creation, and [getLatestVersion] returns the head. *)
Definition getVersions_latest_insertion_first : Prop :=
  ∀ ops d, d ≠ [] →
    ∃ l, fst (getVersions d (run ops).1) = Ok l ∧
         StronglySorted newestFirst l ∧
         (∀ t, atTime t l `sublist_of` reverse (run ops).2) ∧
         fst (getLatestVersion d (run ops).1) = Ok (head l).

(** Restoring any revision of any log: the revision stays, and a copy of
    it is appended with the restore tags. *)
Definition restoreVersion_keeps_and_appends : Prop :=
  ∀ (st : Store) d log v userId clock,
    st !! d = Some log → v ∈ log →
    ∃ r st' log',
      restoreVersion d (v_id v) userId clock st = (Ok r, st') ∧
      st' !! d = Some log' ∧
      v ∈ log' ∧
      last log' = Some r ∧
      v_content r = v_content v ∧
      v_action r = lit "restore" ∧
      v_metadata r !! lit "restoredFrom" = Some (MString (v_id v)) ∧
      v_metadata r !! lit "originalTimestamp" = Some (MDate (v_timestamp v)).


(** ** Properties of the string helpers *)

Lemma remove_all_spec class s c :
  c ∈ remove_all class s ↔ c ∈ s ∧ class c = false.
Proof.
  unfold remove_all. rewrite !list_elem_of_In, filter_In.
  by rewrite negb_true_iff.
Qed.

Lemma remove_all_id class s :
  (∀ c, c ∈ s → class c = false) → remove_all class s = s.
Proof.
  unfold remove_all. induction s as [|c s IH]; intros H; [done|].
  simpl. rewrite (H c) by left. simpl. f_equal. apply IH.
  intros c' Hc'. apply H. by right.
Qed.

Lemma trimStart_suffix s : trimStart s `suffix_of` s.
Proof.
  induction s as [|c s IH]; simpl; [done|].
  destruct (isWhiteSpace c); [|done]. by apply suffix_cons_r.
Qed.

Lemma trimStart_head s c : head (trimStart s) = Some c → isWhiteSpace c = false.
Proof.
  induction s as [|a s IH]; simpl; [done|].
  destruct (isWhiteSpace a) eqn:E; [done|]. simpl. by intros [= <-].
Qed.

Lemma trimStart_id s :
  (∀ c, head s = Some c → isWhiteSpace c = false) → trimStart s = s.
Proof. destruct s as [|c s]; simpl; [done|]. intros H. by rewrite (H c). Qed.

Lemma trimEnd_prefix s : trimEnd s `prefix_of` s.
Proof.
  unfold trimEnd.
  pose proof (trimStart_suffix (reverse s)) as H.
  apply suffix_prefix_reverse in H. by rewrite reverse_involutive in H.
Qed.

Lemma trimEnd_last s c : last (trimEnd s) = Some c → isWhiteSpace c = false.
Proof. unfold trimEnd. rewrite last_reverse. apply trimStart_head. Qed.

Lemma trimEnd_id s :
  (∀ c, last s = Some c → isWhiteSpace c = false) → trimEnd s = s.
Proof.
  intros H. unfold trimEnd. rewrite trimStart_id, reverse_involutive; [done|].
  intros c. rewrite head_reverse. apply H.
Qed.

Lemma prefix_head {A} (l1 l2 : list A) x :
  l1 `prefix_of` l2 → head l1 = Some x → head l2 = Some x.
Proof. intros [k ->]. by destruct l1. Qed.

Lemma trim_elem_of s c : c ∈ trim s → c ∈ s.
Proof.
  unfold trim. intros H.
  eapply elem_of_suffix; [|apply trimStart_suffix].
  eapply elem_of_prefix; [exact H|apply trimEnd_prefix].
Qed.

Lemma trim_head s c : head (trim s) = Some c → isWhiteSpace c = false.
Proof.
  unfold trim. intros H. apply (trimStart_head s).
  eapply prefix_head; [apply trimEnd_prefix|exact H].
Qed.

Lemma trim_last s c : last (trim s) = Some c → isWhiteSpace c = false.
Proof. apply trimEnd_last. Qed.

Lemma trim_id s :
  (∀ c, head s = Some c → isWhiteSpace c = false) →
  (∀ c, last s = Some c → isWhiteSpace c = false) →
  trim s = s.
Proof. intros Hh Hl. unfold trim. rewrite (trimStart_id s Hh). by apply trimEnd_id. Qed.

(** ** The sanitizer *)

Lemma sanitizeInput_string_elem s c :
  c ∈ sanitizeInput (JsString s) → isQuoteOrSemicolon c = false ∧ isControl c = false.
Proof.
  simpl. intros H%trim_elem_of.
  apply remove_all_spec in H as [H Hc].
  apply remove_all_spec in H as [_ Hq]. done.
Qed.

Lemma stripped_spec s :
  stripped s = true ↔
  (∀ c, c ∈ s → isQuoteOrSemicolon c = false ∧ isControl c = false) ∧
  (∀ c, head s = Some c → isWhiteSpace c = false) ∧
  (∀ c, last s = Some c → isWhiteSpace c = false).
Proof.
  unfold stripped. rewrite !andb_true_iff, forallb_forall.
  split.
  - intros [[Ha Hh] Hl]. split_and!.
    + intros c Hc%list_elem_of_In. specialize (Ha c Hc).
      apply andb_true_iff in Ha as [? ?]. by rewrite <-!negb_true_iff.
    + intros c Hc. rewrite Hc in Hh. by apply negb_true_iff.
    + intros c Hc. rewrite Hc in Hl. by apply negb_true_iff.
  - intros (Ha & Hh & Hl). split_and!.
    + intros c Hc%list_elem_of_In. destruct (Ha c Hc) as [-> ->]. done.
    + destruct (head s) as [c|]; [|done]. by rewrite (Hh c).
    + destruct (last s) as [c|]; [|done]. by rewrite (Hl c).
Qed.

Lemma sanitizeInput_string_stripped s : stripped (sanitizeInput (JsString s)) = true.
Proof.
  apply stripped_spec. split_and!.
  - apply sanitizeInput_string_elem.
  - apply trim_head.
  - apply trim_last.
Qed.

Lemma sanitizeInput_stable s :
  stripped s = true →
  remove_all isQuoteOrSemicolon (purify s) = s →
  sanitizeInput (JsString s) = s.
Proof.
  intros (Ha & Hh & Hl)%stripped_spec Hp. simpl. rewrite Hp.
  rewrite remove_all_id by (intros c Hc; by apply Ha).
  by apply trim_id.
Qed.



(** ** The line diff *)

Lemma filter_bool_decidable {A} (P : A → Prop) `{!∀ x, Decision (P x)}
    (f : A → bool) (l : list A) :
  (∀ x, f x = true ↔ P x) → List.filter f l = filter P l.
Proof.
  intros Hf. induction l as [|x l IH]; [done|].
  simpl. rewrite filter_cons, IH.
  destruct (f x) eqn:E, (decide (P x)) as [HP|HP]; try done.
  - by apply Hf in E.
  - apply Hf in HP. congruence.
Qed.

Lemma includes_false lines line : negb (includes lines line) = true ↔ line ∉ lines.
Proof.
  unfold includes. rewrite negb_true_iff, bool_decide_eq_false. done.
Qed.

Lemma added_spec textA textB :
  added (diffLines textA textB)
  = filter (λ line, line ∉ split_char LF textA) (split_char LF textB).
Proof. simpl. apply filter_bool_decidable. intros x. apply includes_false. Qed.

Lemma removed_spec textA textB :
  removed (diffLines textA textB)
  = filter (λ line, line ∉ split_char LF textB) (split_char LF textA).
Proof. simpl. apply filter_bool_decidable. intros x. apply includes_false. Qed.

Lemma diffLines_swap textA textB :
  added (diffLines textB textA) = removed (diffLines textA textB) ∧
  removed (diffLines textB textA) = added (diffLines textA textB) ∧
  totalChanges (diffLines textB textA) = totalChanges (diffLines textA textB).
Proof. simpl. split_and!; [done|done|lia]. Qed.

(** C7.  The added list is the sequence of lines of the second text, in
    order and with repetitions, that equal no line of the first text;
    the removed list is the same with the texts exchanged; so a line that
    occurs in both texts, wherever and however often, is in neither list.
    Diffing a/b/c against b/c/d gives added = [d] and removed = [a]. *)
Theorem diffLines_set_membership :
  (∀ textA textB : jsstring,
     let linesA := split_char LF textA in
     let linesB := split_char LF textB in
     let d := diffLines textA textB in
     added d = filter (λ line, line ∉ linesA) linesB ∧
     removed d = filter (λ line, line ∉ linesB) linesA ∧
     (∀ line, line ∈ added d ↔ line ∈ linesB ∧ line ∉ linesA) ∧
     (∀ line, line ∈ removed d ↔ line ∈ linesA ∧ line ∉ linesB) ∧
     (∀ line, line ∈ linesA → line ∈ linesB → (line ∉ added d) ∧ (line ∉ removed d))) ∧
  (let d := diffLines (lit "a" ++ [LF] ++ lit "b" ++ [LF] ++ lit "c")
                      (lit "b" ++ [LF] ++ lit "c" ++ [LF] ++ lit "d") in
   added d = [lit "d"] ∧ removed d = [lit "a"]).
Proof.
  split; [|by vm_compute].
  intros textA textB linesA linesB d.
  assert (Ha : ∀ line, line ∈ added d ↔ line ∈ linesB ∧ line ∉ linesA).
  { intros line. subst d. rewrite added_spec, list_elem_of_filter. tauto. }
  assert (Hr : ∀ line, line ∈ removed d ↔ line ∈ linesA ∧ line ∉ linesB).
  { intros line. subst d. rewrite removed_spec, list_elem_of_filter. tauto. }
  split_and!.
  - apply added_spec.
  - apply removed_spec.
  - exact Ha.
  - exact Hr.
  - intros line HA HB. rewrite Ha, Hr. tauto.
Qed.

(** ** Looking revisions up *)

Lemma falsy_false s : s ≠ [] → falsy s = false.
Proof. by destruct s. Qed.

Lemma ToBoolean_string s : s ≠ [] → ToBoolean (JsString s) = true.
Proof. by destruct s. Qed.

Lemma find_version_Some versionId l v :
  find_version versionId l = Some v → v ∈ l ∧ v_id v = versionId.
Proof.
  unfold find_version. intros [Hin Hb]%find_some.
  apply list_elem_of_In in Hin. by apply bool_decide_eq_true in Hb.
Qed.

Lemma find_version_None versionId l :
  find_version versionId l = None ↔ ∀ v, v ∈ l → v_id v ≠ versionId.
Proof.
  unfold find_version. split.
  - intros H v Hv%list_elem_of_In.
    pose proof (find_none _ _ H v Hv) as Hb. by apply bool_decide_eq_false in Hb.
  - intros H. destruct (List.find _ l) as [v|] eqn:E; [|done].
    apply find_some in E as [Hin%list_elem_of_In Hb%bool_decide_eq_true].
    by destruct (H v Hin).
Qed.

Lemma find_version_present versionId l :
  (∃ v, v ∈ l ∧ v_id v = versionId) → is_Some (find_version versionId l).
Proof.
  intros (v & Hv & Hid).
  destruct (find_version versionId l) eqn:E; [by eexists|].
  by destruct (proj1 (find_version_None _ _) E v Hv).
Qed.

(** C6.  For two revision ids present in a document's log, comparing them
    in one order and in the other gives differences whose added and
    removed lists are exchanged and whose totalChanges are equal; in each
    result totalChanges is addedCount plus removedCount, and these are the
    lengths of the added and removed lists. *)
Theorem compareVersions_swap (st : Store) (d idA idB : jsstring) (log : list Version) :
  d ≠ [] → idA ≠ [] → idB ≠ [] →
  st !! d = Some log →
  (∃ v, v ∈ log ∧ v_id v = idA) →
  (∃ v, v ∈ log ∧ v_id v = idB) →
  ∃ cAB cBA,
    compareVersions d idA idB st = (Ok cAB, st) ∧
    compareVersions d idB idA st = (Ok cBA, st) ∧
    added (differences cBA) = removed (differences cAB) ∧
    removed (differences cBA) = added (differences cAB) ∧
    totalChanges (differences cBA) = totalChanges (differences cAB) ∧
    (∀ c, c = cAB ∨ c = cBA →
       totalChanges (differences c)
       = (addedCount (differences c) + removedCount (differences c))%nat ∧
       addedCount (differences c) = length (added (differences c)) ∧
       removedCount (differences c) = length (removed (differences c))).
Proof.
  intros Hd HA HB Hlog [vA HvA]%find_version_present [vB HvB]%find_version_present.
  unfold compareVersions, bind, getStore, ret.
  rewrite !falsy_false by done. simpl. rewrite Hlog. simpl.
  rewrite HvA, HvB.
  eexists _, _. split_and!; try reflexivity.
  - simpl. lia.
  - intros c [-> | ->]; done.
Qed.

(** ** Saving and fetching *)

Lemma digitsOf_nonempty s : digitsOf s ≠ [].
Proof.
  unfold digitsOf. pose proof (DecimalPos.Unsigned.to_uint_nonnil s) as H.
  by destruct (Pos.to_uint s).
Qed.

Lemma finiteToString_nonempty s n : finiteToString s n ≠ [].
Proof.
  unfold finiteToString. pose proof (digitsOf_nonempty s) as H.
  destruct (digitsOf s) as [|d fraction]; [done|].
  repeat case_match; try done.
  by destruct (Z.to_nat n).
Qed.

Lemma NumberToString_nonempty x : NumberToString x ≠ [].
Proof.
  destruct x as [|[]| |[] s n]; try done; simpl.
  apply finiteToString_nonempty.
Qed.

Lemma Number_toString_nonempty n : Number_toString n ≠ [].
Proof. apply NumberToString_nonempty. Qed.

Lemma push_capped_eq l v :
  push_capped l v = (if (50 <=? length l)%nat then tail l else l) ++ [v].
Proof.
  unfold push_capped.
  destruct (50 <? length (l ++ [v]))%nat eqn:E';
    [apply Nat.ltb_lt in E'|apply Nat.ltb_ge in E'];
    rewrite length_app in E'; simpl in E';
    (destruct (50 <=? length l)%nat eqn:E;
       [apply Nat.leb_le in E|apply Nat.leb_gt in E]); try lia.
  - destruct l; [simpl in E; lia|done].
  - done.
Qed.

Lemma tail_suffix {A} (l : list A) : tail l `suffix_of` l.
Proof. destruct l; simpl; [done|]. by apply suffix_cons_r. Qed.

Lemma push_capped_last l v : last (push_capped l v) = Some v.
Proof. rewrite push_capped_eq. apply last_snoc. Qed.

Lemma push_capped_elem_of l v w :
  w ∈ push_capped l v → w ∈ l ∨ w = v.
Proof.
  rewrite push_capped_eq, elem_of_app, list_elem_of_singleton.
  intros [H|H]; [left|by right].
  destruct (50 <=? length l)%nat; [|done].
  eapply elem_of_suffix; [exact H|apply tail_suffix].
Qed.

Lemma push_capped_keeps_tail l v w : w ∈ tail l → w ∈ push_capped l v.
Proof.
  rewrite push_capped_eq, elem_of_app. intros H. left.
  destruct (50 <=? length l)%nat; [done|].
  eapply elem_of_suffix; [exact H|apply tail_suffix].
Qed.

Lemma push_capped_below_cap l v : (length l < 50)%nat → push_capped l v = l ++ [v].
Proof.
  intros H. rewrite push_capped_eq.
  by destruct (50 <=? length l)%nat eqn:E; [apply Nat.leb_le in E; lia|].
Qed.

Lemma push_capped_length l v :
  (length l ≤ 50)%nat → (length (push_capped l v) ≤ 50)%nat.
Proof.
  intros H. rewrite push_capped_eq.
  destruct (50 <=? length l)%nat eqn:E; rewrite length_app.
  - destruct l; simpl in *; lia.
  - apply Nat.leb_gt in E. simpl. lia.
Qed.

Lemma push_capped_sublist l v : push_capped l v `sublist_of` l ++ [v].
Proof.
  rewrite push_capped_eq. apply sublist_app; [|done].
  destruct (50 <=? length l)%nat; [|done].
  destruct l; simpl; [done|]. by apply sublist_cons.
Qed.

Lemma find_version_snoc versionId l v :
  (∀ w, w ∈ l → v_id w ≠ versionId) → v_id v = versionId →
  find_version versionId (l ++ [v]) = Some v.
Proof.
  intros Hl Hv. unfold find_version.
  induction l as [|w l IH]; simpl.
  - by rewrite bool_decide_eq_true_2.
  - rewrite bool_decide_eq_false_2 by (apply Hl; left).
    apply IH. intros w' Hw'. apply Hl. by right.
Qed.

Lemma find_version_push_capped versionId l v :
  (∀ w, w ∈ l → v_id w ≠ versionId) → v_id v = versionId →
  find_version versionId (push_capped l v) = Some v.
Proof.
  intros Hl Hv. rewrite push_capped_eq. apply find_version_snoc; [|done].
  intros w Hw. apply Hl.
  destruct (50 <=? length l)%nat; [|done].
  eapply elem_of_suffix; [exact Hw|apply tail_suffix].
Qed.

Lemma saveVersion_ok st d content userId action metadata clock :
  d ≠ [] → ToBoolean content = true →
  saveVersion d content userId action metadata clock st
  = (Ok (newVersion d content userId action metadata clock),
     <[d := push_capped (default [] (st !! d))
              (newVersion d content userId action metadata clock)]> st).
Proof.
  intros Hd Hc. unfold saveVersion. by rewrite falsy_false, Hc by done.
Qed.

Lemma saveVersion_throw st d content userId action metadata clock :
  d = [] ∨ ToBoolean content = false →
  saveVersion d content userId action metadata clock st
  = (Throw DocumentIdAndContentRequired, st).
Proof.
  unfold saveVersion. intros [-> | ->]; [done|]. by rewrite orb_true_r.
Qed.

Lemma withStats_wordCount metadata s :
  withStats metadata s !! lit "wordCount" = Some (MNumber (Z.of_nat (wordCount s))).
Proof.
  unfold withStats.
  rewrite !lookup_insert_ne by compute_done. apply lookup_insert_eq.
Qed.

Lemma withStats_characterCount metadata s :
  withStats metadata s !! lit "characterCount" = Some (MNumber (Z.of_nat (length s))).
Proof.
  unfold withStats.
  rewrite lookup_insert_ne by compute_done. apply lookup_insert_eq.
Qed.

Lemma withStats_lineCount metadata s :
  withStats metadata s !! lit "lineCount"
  = Some (MNumber (Z.of_nat (length (split_char LF s)))).
Proof. unfold withStats. apply lookup_insert_eq. Qed.

Lemma withStats_other metadata s key :
  key ≠ lit "wordCount" → key ≠ lit "characterCount" → key ≠ lit "lineCount" →
  withStats metadata s !! key = metadata !! key.
Proof. intros. unfold withStats. by rewrite !lookup_insert_ne. Qed.

(** The round trip of saving and fetching, which holds as long as the
    clock has moved on: when no revision of the document carries the id
    the new revision gets, [getVersion], called with that id, returns the
    revision [saveVersion] returned, with the sanitized content and action
    and with the counts of the sanitized content.  Nothing in the code
    makes the clock move on between two saves. *)
Lemma saveVersion_then_getVersion
    (st : Store) (d : jsstring) (content userId action : JsValue)
    (metadata : gmap jsstring MetaValue) (clock : Clock) :
  d ≠ [] → ToBoolean content = true →
  (∀ w, w ∈ default [] (st !! d) → v_id w ≠ Number_toString (Date_now clock)) →
  ∃ v st',
    saveVersion d content userId action metadata clock st = (Ok v, st') ∧
    getVersion d (v_id v) st' = (Ok (Some v), st') ∧
    v_content v = sanitizeInput content ∧
    v_action v = sanitizeInput (orEdit action) ∧
    v_metadata v !! lit "wordCount"
    = Some (MNumber (Z.of_nat (wordCount (v_content v)))) ∧
    v_metadata v !! lit "characterCount"
    = Some (MNumber (Z.of_nat (length (v_content v)))) ∧
    v_metadata v !! lit "lineCount"
    = Some (MNumber (Z.of_nat (length (split_char LF (v_content v))))).
Proof.
  intros Hd Hc Hfresh. eexists _, _.
  split; [by apply saveVersion_ok|].
  split_and!; try reflexivity.
  - unfold getVersion, bind, getStore, ret.
    rewrite (falsy_false d) by done. simpl.
    rewrite (falsy_false (Number_toString _)) by apply Number_toString_nonempty.
    rewrite lookup_insert_eq. simpl.
    by rewrite find_version_push_capped.
  - apply withStats_wordCount.
  - apply withStats_characterCount.
  - apply withStats_lineCount.
Qed.

(** C10.  The emptiness test of [saveVersion] looks at the raw content:
    a non-empty content whose sanitized form is empty is accepted, and the
    revision stored last in the log has empty content, word count 0,
    character count 0 and line count 1. *)
Theorem saveVersion_accepts_content_sanitized_to_empty
    (st : Store) (d content : jsstring) (userId action : JsValue)
    (metadata : gmap jsstring MetaValue) (clock : Clock) :
  d ≠ [] → content ≠ [] →
  sanitizeInput (JsString content) = [] →
  ∃ v st' log,
    saveVersion d (JsString content) userId action metadata clock st = (Ok v, st') ∧
    st' !! d = Some log ∧ last log = Some v ∧
    v_content v = [] ∧
    v_metadata v !! lit "wordCount" = Some (MNumber 0) ∧
    v_metadata v !! lit "characterCount" = Some (MNumber 0) ∧
    v_metadata v !! lit "lineCount" = Some (MNumber 1).
Proof.
  intros Hd Hc Hempty. eexists _, _, _.
  split; [by apply saveVersion_ok, ToBoolean_string|].
  split; [apply lookup_insert_eq|].
  split; [apply push_capped_last|].
  unfold newVersion. cbn [v_content v_metadata]. rewrite Hempty.
  split_and!; [done| | |].
  - by rewrite withStats_wordCount.
  - by rewrite withStats_characterCount.
  - by rewrite withStats_lineCount.
Qed.

(** ** Restoring *)

Lemma restoreVersion_found st d versionId userId clock v :
  d ≠ [] → versionId ≠ [] →
  find_version versionId (default [] (st !! d)) = Some v →
  restoreVersion d versionId userId clock st
  = saveVersion d (JsString (v_content v)) userId (JsString (lit "restore"))
      (<[lit "originalTimestamp" := MDate (v_timestamp v)]>
         (<[lit "restoredFrom" := MString versionId]> ∅))
      clock st.
Proof.
  intros Hd Hv Hfind. unfold restoreVersion, getVersion, bind, getStore, ret.
  rewrite !falsy_false by done. simpl. by rewrite Hfind.
Qed.

Lemma restoreVersion_not_found st d versionId userId clock :
  d ≠ [] → versionId ≠ [] →
  find_version versionId (default [] (st !! d)) = None →
  restoreVersion d versionId userId clock st = (Throw VersionNotFound, st).
Proof.
  intros Hd Hv Hfind. unfold restoreVersion, getVersion, bind, getStore, ret.
  rewrite !falsy_false by done. simpl. by rewrite Hfind.
Qed.

(** C2, amended.  For non-empty ids, [restoreVersion] throws 'Version not
    found' when no revision of the document's log has the id.  Otherwise
    let v be the first stored revision with that id; when its content is
    non-empty the call returns a new revision r and stores it last in the
    log.  No stored revision is changed, every stored revision but the
    first is kept, and the first is kept too while the log holds fewer
    than 50 revisions (at 50 the retention step drops it, v or not).  The
    content of r is the sanitized content of v, equal to the content of v
    when that is stripped and purifying it changes nothing the quote and
    semicolon filter does not remove; the action of r is the sanitized
    word restore; restoredFrom is the id and originalTimestamp is the
    timestamp of v. *)
Theorem restoreVersion_appends_copy
    (st : Store) (d versionId : jsstring) (userId : JsValue) (clock : Clock) :
  d ≠ [] → versionId ≠ [] →
  let log := default [] (st !! d) in
  match find_version versionId log with
  | None => restoreVersion d versionId userId clock st = (Throw VersionNotFound, st)
  | Some v =>
      v_content v ≠ [] →
      ∃ r,
        restoreVersion d versionId userId clock st
        = (Ok r, <[d := push_capped log r]> st) ∧
        last (push_capped log r) = Some r ∧
        (∀ w, w ∈ tail log → w ∈ push_capped log r) ∧
        ((length log < 50)%nat → push_capped log r = log ++ [r]) ∧
        v_content r = sanitizeInput (JsString (v_content v)) ∧
        (stripped (v_content v) = true →
         remove_all isQuoteOrSemicolon (purify (v_content v)) = v_content v →
         v_content r = v_content v) ∧
        v_action r = sanitizeInput (JsString (lit "restore")) ∧
        (purify (lit "restore") = lit "restore" → v_action r = lit "restore") ∧
        v_metadata r !! lit "restoredFrom" = Some (MString versionId) ∧
        v_metadata r !! lit "originalTimestamp" = Some (MDate (v_timestamp v))
  end.
Proof.
  intros Hd Hv log.
  destruct (find_version versionId log) as [v|] eqn:Hfind;
    [|by apply restoreVersion_not_found].
  intros Hc. eexists.
  split; [rewrite (restoreVersion_found _ _ _ _ _ v) by done;
          by apply saveVersion_ok, ToBoolean_string|].
  split; [apply push_capped_last|].
  split; [intros w; apply push_capped_keeps_tail|].
  split; [apply push_capped_below_cap|].
  split; [reflexivity|].
  split; [intros; by apply sanitizeInput_stable|].
  split; [reflexivity|].
  split.
  { intros Hp. transitivity (sanitizeInput (JsString (lit "restore"))); [done|].
    unfold sanitizeInput. rewrite Hp. by vm_compute. }
  cbn [newVersion v_metadata].
  rewrite !withStats_other by compute_done.
  split.
  - rewrite lookup_insert_ne by compute_done. apply lookup_insert_eq.
  - apply lookup_insert_eq.
Qed.

(** ** Cleaning up *)

Lemma Array_slice_neg_zero {A} (l : list A) : Array_slice (- 0) l = l.
Proof. unfold Array_slice. simpl. rewrite Z.min_l by lia. done. Qed.

Lemma Array_slice_last {A} (k : Z) (l : list A) :
  0 < k < Z.of_nat (length l) →
  Array_slice (- k) l = drop (length l - Z.to_nat k) l.
Proof.
  intros Hk. unfold Array_slice.
  destruct (- k <? 0) eqn:E; [|apply Z.ltb_ge in E; lia].
  f_equal. lia.
Qed.

Lemma Array_slice_sublist {A} (start : Z) (l : list A) :
  Array_slice start l `sublist_of` l.
Proof. apply sublist_drop. Qed.

Lemma cleanupOldVersions_keeps_stored_tail st d (keepCount : Z) log :
  d ≠ [] → st !! d = Some log → 0 < keepCount < Z.of_nat (length log) →
  cleanupOldVersions d keepCount st
  = (Ok tt, <[d := drop (length log - Z.to_nat keepCount) log]> st).
Proof.
  intros Hd Hlog Hk. unfold cleanupOldVersions, bind, getStore, putStore.
  rewrite falsy_false by done. simpl. rewrite Hlog.
  destruct (Z.of_nat (length log) <=? keepCount) eqn:E; [apply Z.leb_le in E; lia|].
  by rewrite Array_slice_last.
Qed.

(** C4, at the failing input.  With keepCount = 0 the call never changes
    the store: the test [versions.length <= 0] fails for a log that is
    not empty, and [slice(-0)] is [slice(0)], the whole array.  On a
    document with three revisions the call returns and the three are
    still there. *)
Theorem cleanupOldVersions_zero_keeps_everything :
  (∀ (st : Store) (d : jsstring), snd (cleanupOldVersions d 0 st) = st) ∧
  (let st : Store := {[ doc := [revision 1; revision 2; revision 3] ]} in
   fst (cleanupOldVersions doc 0 st) = Ok tt ∧
   snd (cleanupOldVersions doc 0 st) !! doc = Some [revision 1; revision 2; revision 3]).
Proof.
  split; [|by vm_compute].
  intros st d. unfold cleanupOldVersions, bind, getStore, putStore, ret, throw.
  destruct (falsy d); [done|]. simpl.
  destruct (st !! d) as [log|] eqn:Hlog; [|done].
  destruct (Z.of_nat (length log) <=? 0); [done|]. simpl.
  rewrite (Array_slice_neg_zero log). by apply insert_id.
Qed.

(** ** Sorting by timestamp *)

Lemma sort_insert_perm {A} (compareFn : A → A → Z) x l :
  sort_insert compareFn x l ≡ₚ x :: l.
Proof.
  induction l as [|y l IH]; simpl; [done|].
  destruct (compareFn x y <=? 0); [done|].
  rewrite IH. apply Permutation_swap.
Qed.

Lemma Array_sort_perm {A} (compareFn : A → A → Z) l :
  Array_sort compareFn l ≡ₚ l.
Proof.
  induction l as [|x l IH]; simpl; [done|].
  by rewrite sort_insert_perm, IH.
Qed.

Lemma sort_insert_sorted x l :
  StronglySorted newestFirst l →
  StronglySorted newestFirst (sort_insert byTimestampDesc x l).
Proof.
  induction 1 as [|y l Hs IH Hy]; simpl.
  - by repeat constructor.
  - unfold byTimestampDesc at 1.
    destruct (v_timestamp y - v_timestamp x <=? 0) eqn:E.
    + apply Z.leb_le in E. constructor; [by constructor|].
      constructor; [unfold newestFirst; lia|].
      eapply Forall_impl; [exact Hy|]. unfold newestFirst. intros; lia.
    + apply Z.leb_gt in E. constructor; [done|].
      rewrite sort_insert_perm. constructor; [unfold newestFirst; lia|done].
Qed.

Lemma Array_sort_sorted l :
  StronglySorted newestFirst (Array_sort byTimestampDesc l).
Proof.
  induction l as [|x l IH]; simpl; [constructor|by apply sort_insert_sorted].
Qed.

Lemma sort_insert_atTime t x l :
  atTime t (sort_insert byTimestampDesc x l) = atTime t (x :: l).
Proof.
  unfold atTime. induction l as [|y l IH]; simpl; [done|].
  unfold byTimestampDesc at 1.
  destruct (v_timestamp y - v_timestamp x <=? 0) eqn:E; [done|].
  apply Z.leb_gt in E.
  rewrite (filter_cons _ y), IH, !(filter_cons _ x), !(filter_cons _ y).
  destruct (decide (v_timestamp x = t)), (decide (v_timestamp y = t)); try done.
  lia.
Qed.

(** The sort is stable: revisions of one timestamp keep their order. *)
Lemma Array_sort_atTime t l :
  atTime t (Array_sort byTimestampDesc l) = atTime t l.
Proof.
  induction l as [|x l IH]; simpl; [done|].
  rewrite sort_insert_atTime. unfold atTime in *. by rewrite !filter_cons, IH.
Qed.

Lemma getVersions_ok st d :
  d ≠ [] →
  getVersions d st
  = (Ok (Array_sort byTimestampDesc (default [] (st !! d))),
     match st !! d with
     | Some versions => <[d := Array_sort byTimestampDesc versions]> st
     | None => st
     end).
Proof.
  intros Hd. unfold getVersions, bind, getStore, putStore, ret.
  rewrite falsy_false by done. by destruct (st !! d).
Qed.

Lemma getLatestVersion_ok st d :
  d ≠ [] →
  getLatestVersion d st
  = (Ok (head (Array_sort byTimestampDesc (default [] (st !! d)))),
     (getVersions d st).2).
Proof.
  intros Hd. unfold getLatestVersion, bind, ret.
  rewrite falsy_false by done. by rewrite getVersions_ok.
Qed.

(** ** Runs *)

(** What a call does to the log of one document: nothing, an append with
    the retention step, the sort, or a slice. *)
Lemma exec_lookup op st d :
  exec op st !! d = st !! d
  ∨ (∃ v, created op st = [v] ∧
          exec op st !! d = Some (push_capped (default [] (st !! d)) v))
  ∨ (∃ log, st !! d = Some log ∧
            exec op st !! d = Some (Array_sort byTimestampDesc log))
  ∨ (∃ log start, st !! d = Some log ∧
                  exec op st !! d = Some (Array_slice start log)).
Proof.
  destruct op as [d' c u a m clock|d'|d' v|d'|d' v1 v2|d' v u clock|d' k]; simpl.
  - destruct (decide (d' = []) ) as [->|Hd]; [by left|].
    destruct (ToBoolean c) eqn:Hc.
    2: { rewrite saveVersion_throw by auto. by left. }
    rewrite saveVersion_ok by done. simpl.
    destruct (decide (d' = d)) as [->|Hne].
    + right; left. eexists. split; [done|]. by rewrite lookup_insert_eq.
    + left. by rewrite lookup_insert_ne.
  - destruct (decide (d' = [])) as [->|Hd]; [by left|].
    rewrite getVersions_ok by done. simpl.
    destruct (st !! d') as [log|] eqn:Hlog; [|by left].
    destruct (decide (d' = d)) as [->|Hne].
    + right; right; left. exists log. by rewrite lookup_insert_eq.
    + left. by rewrite lookup_insert_ne.
  - left. unfold getVersion, bind, getStore, ret, throw.
    by destruct (falsy d' || falsy v).
  - destruct (decide (d' = [])) as [->|Hd]; [by left|].
    rewrite getLatestVersion_ok, getVersions_ok by done. simpl.
    destruct (st !! d') as [log|] eqn:Hlog; [|by left].
    destruct (decide (d' = d)) as [->|Hne].
    + right; right; left. exists log. by rewrite lookup_insert_eq.
    + left. by rewrite lookup_insert_ne.
  - left. unfold compareVersions, bind, getStore, ret, throw.
    destruct (falsy d' || falsy v1 || falsy v2); [done|]. simpl.
    by destruct (find_version v1 (default [] (st !! d'))),
               (find_version v2 (default [] (st !! d'))).
  - destruct (decide (d' = [])) as [->|Hd]; [by left|].
    destruct (decide (v = [])) as [->|Hv].
    { left. unfold restoreVersion. by rewrite orb_true_r. }
    destruct (find_version v (default [] (st !! d'))) as [w|] eqn:Hfind.
    2: { rewrite restoreVersion_not_found by done. by left. }
    rewrite (restoreVersion_found _ _ _ _ _ w) by done.
    destruct (ToBoolean (JsString (v_content w))) eqn:Hc.
    2: { rewrite saveVersion_throw by auto. by left. }
    rewrite saveVersion_ok by done. simpl.
    destruct (decide (d' = d)) as [->|Hne].
    + right; left. eexists. split; [done|]. by rewrite lookup_insert_eq.
    + left. by rewrite lookup_insert_ne.
  - unfold cleanupOldVersions, bind, getStore, putStore, ret, throw.
    destruct (falsy d'); [by left|]. simpl.
    destruct (st !! d') as [log|] eqn:Hlog; [|by left].
    destruct (Z.of_nat (length log) <=? k); [by left|]. simpl.
    destruct (decide (d' = d)) as [->|Hne].
    + right; right; right. exists log, (- k). by rewrite lookup_insert_eq.
    + left. by rewrite lookup_insert_ne.
Qed.

Lemma run_snoc ops op : run (ops ++ [op]) = step (run ops) op.
Proof. unfold run. by rewrite fold_left_app. Qed.

Lemma atTime_sublist t l k : l `sublist_of` k → atTime t l `sublist_of` atTime t k.
Proof.
  unfold atTime. induction 1 as [|x l k _ IH|x l k _ IH]; [done| |].
  - rewrite !filter_cons. destruct (decide _); [by constructor|done].
  - rewrite filter_cons. destruct (decide _); [by constructor|done].
Qed.

Lemma atTime_self_sublist t l : atTime t l `sublist_of` l.
Proof.
  unfold atTime. induction l as [|x l IH]; [done|].
  rewrite filter_cons. destruct (decide _); by constructor.
Qed.

Lemma step_inv w op : store_inv w → store_inv (step w op).
Proof.
  intros Hinv d log'. unfold step. simpl. intros Hlog'.
  destruct (exec_lookup op w.1 d)
    as [Heq|[(v & Hv & Heq)|[(log & Hlog & Heq)|(log & k & Hlog & Heq)]]];
    rewrite Heq in Hlog'.
  - destruct (Hinv d log' Hlog') as [Hlen Hord]. split; [done|].
    intros t. by apply sublist_inserts_r.
  - injection Hlog' as <-. rewrite Hv.
    assert (Hold : (length (default [] (w.1 !! d)) ≤ 50)%nat ∧
                   ∀ t, atTime t (default [] (w.1 !! d)) `sublist_of` w.2).
    { destruct (w.1 !! d) as [log|] eqn:Hlog; simpl.
      - by apply (Hinv d log).
      - split; [lia|]. intros t. apply sublist_nil_l. }
    destruct Hold as [Hlen Hord]. split; [by apply push_capped_length|].
    intros t. etrans; [apply atTime_sublist, push_capped_sublist|].
    unfold atTime. rewrite filter_app.
    apply sublist_app; [exact (Hord t)|exact (atTime_self_sublist t [v])].
  - injection Hlog' as <-. destruct (Hinv d log Hlog) as [Hlen Hord]. split.
    + by rewrite Array_sort_perm.
    + intros t. rewrite Array_sort_atTime. by apply sublist_inserts_r.
  - injection Hlog' as <-. destruct (Hinv d log Hlog) as [Hlen Hord]. split.
    + etrans; [apply sublist_length, Array_slice_sublist|done].
    + intros t. apply sublist_inserts_r.
      etrans; [apply atTime_sublist, Array_slice_sublist|apply Hord].
Qed.

Lemma run_inv ops : store_inv (run ops).
Proof.
  induction ops as [|op ops IH] using rev_ind.
  - intros d log. unfold run. simpl. by rewrite lookup_empty.
  - rewrite run_snoc. by apply step_inv.
Qed.

(** The retention cap holds all along every run. *)
Lemma retention_cap_never_exceeded ops d log :
  (run ops).1 !! d = Some log → (length log ≤ 50)%nat.
Proof. intros H. by apply (run_inv ops d log). Qed.

(** What the sort gives along every run: [getVersions] on a non-empty
    document id returns the stored revisions of the document, newest
    first by timestamp, revisions of equal timestamp in the order of
    their creation, and [getLatestVersion] returns the head of that list,
    or null when there is none. *)
Lemma getVersions_newest_first_stable (ops : list Op) (d : jsstring) :
  d ≠ [] →
  ∃ l, fst (getVersions d (run ops).1) = Ok l ∧
       l ≡ₚ default [] ((run ops).1 !! d) ∧
       StronglySorted newestFirst l ∧
       (∀ t, atTime t l `sublist_of` (run ops).2) ∧
       fst (getLatestVersion d (run ops).1) = Ok (head l).
Proof.
  intros Hd. eexists. rewrite getVersions_ok, getLatestVersion_ok by done.
  split; [reflexivity|].
  split; [apply Array_sort_perm|].
  split; [apply Array_sort_sorted|].
  split; [|reflexivity].
  intros t. rewrite Array_sort_atTime.
  destruct ((run ops).1 !! d) as [log|] eqn:Hlog; simpl.
  - by apply (run_inv ops d log).
  - apply sublist_nil_l.
Qed.

(** C1, at the failing input.  After fifty saves at times 1 to 50, one
    call of [getVersions] and a save at time 51, the log holds fifty
    revisions, stored as 49, 48, ..., 1, 51: the retention step dropped
    revision 50, the newest before the save, and kept revision 1, the
    oldest. *)
Theorem retention_evicts_newest_after_getVersions :
  let st := (run eviction_run).1 in
  v_timestamp <$> default [] (st !! doc) = reverse (seqZ 1 49) ++ [51] ∧
  fst (getVersion doc (Number_toString 50) st) = Ok None ∧
  match fst (getVersion doc (Number_toString 1) st) with
  | Ok (Some v) => v_timestamp v = 1
  | _ => False
  end.
Proof. by vm_compute. Qed.

(** ** Exporting *)

Lemma createTextHeader_eq options env :
  createTextHeader options env
  = lit "Title: " ++ orElse (title options) (lit "Exported Document") ++ [LF]
    ++ lit "Date: " ++ localeDateString env ++ [LF]
    ++ lit "Time: " ++ localeTimeString env ++ [LF]
    ++ lit "Author: " ++ orElse (author options) (lit "Meet with AI") ++ [LF; LF]
    ++ lit "---".
Proof. reflexivity. Qed.

Lemma createMetadataFooter_eq options env :
  createMetadataFooter options env
  = lit "---" ++ [LF] ++ lit "*Exported from Meet with AI*" ++ [LF]
    ++ lit "*Date: " ++ localeDateString env ++ lit "*" ++ [LF]
    ++ lit "*Time: " ++ localeTimeString env ++ lit "*".
Proof. reflexivity. Qed.

Lemma createFrontmatter_eq options env :
  createFrontmatter options env
  = lit "---" ++ [LF]
    ++ lit "title: " ++ orElse (title options) (lit "Exported Document") ++ [LF]
    ++ lit "date: " ++ frontmatterISOString env ++ [LF]
    ++ lit "author: " ++ orElse (author options) (lit "Meet with AI") ++ [LF]
    ++ lit "tags: " ++ JSON_stringify (default [] (tags options)) ++ [LF]
    ++ lit "category: " ++ orElse (category options) (lit "export") ++ [LF]
    ++ lit "---".
Proof. unfold createFrontmatter. cbn [join]. by rewrite <-!app_assoc. Qed.

(** C9.  When the file is written, exporting a text to txt with
    includeMetadata produces the header block (the lines Title, Date,
    Time and Author, an empty line and a rule of three hyphens), two line
    feeds and the sanitized content; exporting it to markdown with
    includeMetadata produces the sanitized content, two line feeds and
    the footer (a rule, the line Exported from Meet with AI, and the date
    and time lines, each between asterisks), preceded by the frontmatter
    and two line feeds only when includeFrontmatter is set.  In both
    payloads the sanitized content is a contiguous part. *)
Theorem export_payload_contains_sanitized_content
    (text : jsstring) (options : ExportOptions) (env : ExportEnv) :
  includeMetadata options = true →
  writeFile_ok env = true →
  let sanitized := sanitizeInput (JsString text) in
  let header :=
    lit "Title: " ++ orElse (title options) (lit "Exported Document") ++ [LF]
    ++ lit "Date: " ++ localeDateString env ++ [LF]
    ++ lit "Time: " ++ localeTimeString env ++ [LF]
    ++ lit "Author: " ++ orElse (author options) (lit "Meet with AI") ++ [LF; LF]
    ++ lit "---" in
  let footer :=
    lit "---" ++ [LF] ++ lit "*Exported from Meet with AI*" ++ [LF]
    ++ lit "*Date: " ++ localeDateString env ++ lit "*" ++ [LF]
    ++ lit "*Time: " ++ localeTimeString env ++ lit "*" in
  let frontmatter :=
    lit "---" ++ [LF]
    ++ lit "title: " ++ orElse (title options) (lit "Exported Document") ++ [LF]
    ++ lit "date: " ++ frontmatterISOString env ++ [LF]
    ++ lit "author: " ++ orElse (author options) (lit "Meet with AI") ++ [LF]
    ++ lit "tags: " ++ JSON_stringify (default [] (tags options)) ++ [LF]
    ++ lit "category: " ++ orElse (category options) (lit "export") ++ [LF]
    ++ lit "---" in
  (∃ r, exportToText text options env = Ok r ∧
        e_contentType r = lit "text/plain" ∧
        e_content r = header ++ [LF; LF] ++ sanitized) ∧
  (∃ r, exportToMarkdown text options env = Ok r ∧
        e_contentType r = lit "text/markdown" ∧
        e_content r
        = (if includeFrontmatter options then frontmatter ++ [LF; LF] else [])
          ++ sanitized ++ [LF; LF] ++ footer) ∧
  (∀ r, exportToText text options env = Ok r ∨ exportToMarkdown text options env = Ok r →
        ∃ before after, e_content r = before ++ sanitized ++ after).
Proof.
  intros Hmeta Hwrite sanitized header footer frontmatter.
  assert (Htxt : exportToText text options env
                 = Ok {| e_filename := generateFilename env (lit "txt");
                         e_contentType := lit "text/plain";
                         e_content := header ++ [LF; LF] ++ sanitized |}).
  { unfold exportToText. rewrite Hmeta, Hwrite.
    by rewrite createTextHeader_eq. }
  assert (Hmd : exportToMarkdown text options env
                = Ok {| e_filename := generateFilename env (lit "md");
                        e_contentType := lit "text/markdown";
                        e_content :=
                          (if includeFrontmatter options
                           then frontmatter ++ [LF; LF] else [])
                          ++ sanitized ++ [LF; LF] ++ footer |}).
  { unfold exportToMarkdown. rewrite Hmeta, Hwrite.
    rewrite createMetadataFooter_eq, createFrontmatter_eq.
    fold frontmatter footer sanitized.
    destruct (includeFrontmatter options); [|done].
    do 2 f_equal. by rewrite <-!app_assoc. }
  split_and!.
  - by eexists.
  - by eexists.
  - intros r [Hr|Hr].
    + rewrite Htxt in Hr. injection Hr as <-. simpl.
      exists (header ++ [LF; LF]), [].
      rewrite app_nil_r. by rewrite <-(app_assoc _ [LF; LF] sanitized).
    + rewrite Hmd in Hr. injection Hr as <-. simpl. by eexists _, _.
Qed.

End Service.

(** ** Sample runs and counterexamples *)

(** The purifier on texts without markup, which it returns unchanged;
    the samples below contain none. *)
Definition plain_text : jsstring → jsstring := λ s, s.

(** [JSON.stringify] of the empty array, the only one the samples print. *)
Definition stringify_empty : list jsstring → jsstring := λ _, lit "[]".

Definition hello : Version :=
  {| v_id := lit "1"; v_documentId := doc; v_content := lit "Hello world";
     v_userId := lit "anonymous"; v_action := lit "edit"; v_timestamp := 1;
     v_metadata := withStats ∅ (lit "Hello world") |}.

Definition hello_brave : Version :=
  {| v_id := lit "2"; v_documentId := doc; v_content := lit "Hello brave world";
     v_userId := lit "anonymous"; v_action := lit "edit"; v_timestamp := 2;
     v_metadata := withStats ∅ (lit "Hello brave world") |}.

(** Saving a text with the default user and action. *)
Definition save_text (text : string) (clock : Clock) : Op :=
  OpSaveVersion doc (JsString (lit text)) JsUndefined JsUndefined ∅ clock.

(** Two saves whose timestamps coincide. *)
Definition same_time_saves : list Op :=
  [ save_text "first" (mkClock 4 5); save_text "second" (mkClock 5 5) ].

(** A purifier with the early exit for which sanitizing twice differs
    from sanitizing once: it drops a button element and keeps what the
    element holds, and it reads two paragraphs of which the second opens
    inside the first as a parser of HTML does, the second closing the
    first. *)
Definition reparsing_purifier (s : jsstring) : jsstring :=
  if bool_decide (s = lit "<p><button><p>a</p></button></p>")
  then lit "<p><p>a</p></p>"
  else if bool_decide (s = lit "<p><p>a</p></p>")
  then lit "<p></p><p>a</p><p></p>"
  else s.



(** On that array sanitizing twice differs from sanitizing once, whatever
    the purifier: the second pass takes the string branch and removes the
    semicolon the first pass kept. *)
Example sanitizeInput_array_not_idempotent (purify : jsstring → jsstring) :
  let r := sanitizeInput purify validator_escape (JsArray [JsString (lit " a;")]) in
  r = lit " a;" ∧ sanitizeInput purify validator_escape (JsString r) ≠ r.
Proof.
  intros r. split; [by vm_compute|].
  intros Heq.
  assert (Hin : semicolon ∈ sanitizeInput purify validator_escape (JsString r)).
  { rewrite Heq. apply (bool_decide_unpack _). by vm_compute. }
  apply sanitizeInput_string_elem in Hin as [Hq _]. by vm_compute in Hq.
Qed.

(** The string forms of numbers: plain digits up to 21 integral digits
    and down to 6 fractional zeros, the exponent form beyond. *)
Example NumberToString_forms :
  NumberToString (Finite false 123456 3) = lit "123.456" ∧
  NumberToString (Finite false 1 3) = lit "100" ∧
  NumberToString (Finite false 1 (-5)) = lit "0.000001" ∧
  NumberToString (Finite false 1 (-6)) = lit "1e-7" ∧
  NumberToString (Finite false 15 (-6)) = lit "1.5e-7" ∧
  NumberToString (Finite false 1 21) = lit "100000000000000000000" ∧
  NumberToString (Finite false 1 22) = lit "1e+21" ∧
  NumberToString (Finite true 15 22) = lit "-1.5e+21" ∧
  NumberToString Zero = lit "0" ∧
  NumberToString NotANumber = lit "NaN" ∧
  NumberToString (Infinite true) = lit "-Infinity" ∧
  Number_toString 0 = lit "0" ∧
  Number_toString 1700000000000 = lit "1700000000000" ∧
  Number_toString (-120) = lit "-120" ∧
  Number_toString (10 ^ 21) = lit "1e+21".
Proof. by vm_compute. Qed.

(** Other values the sanitizer only escapes, and an entity of the escape
    ends in a semicolon. *)
Example sanitizeInput_of_other_values (purify : jsstring → jsstring) :
  let sanitize := sanitizeInput purify validator_escape in
  sanitize (JsNumber (Finite false 1 22)) = lit "1e+21" ∧
  sanitize (JsNumber (Finite true 15 1)) = lit "-1.5" ∧
  sanitize JsNull = lit "null" ∧
  sanitize JsUndefined = lit "undefined" ∧
  sanitize (JsBool false) = lit "false" ∧
  sanitize JsObject = lit "[object Object]" ∧
  sanitize (JsArray []) = [] ∧
  sanitize (JsArray [JsNumber (Number_of_Z 1); JsNull; JsArray [JsBool true; JsObject]])
  = lit "1,,true,[object Object]" ∧
  sanitize (JsArray [JsString (lit "<b>")]) = lit "&lt;b&gt;".
Proof. by vm_compute. Qed.

(** The early exit alone does not settle strings that keep markup: with
    [reparsing_purifier], which returns every text without [<] as it is,
    the sanitized form of a paragraph around a button around a paragraph
    is changed by a second pass. *)
Example sanitizeInput_twice_with_markup :
  (∀ t, 60%N ∉ t → reparsing_purifier t = t) ∧
  let r := sanitizeInput reparsing_purifier validator_escape
             (JsString (lit "<p><button><p>a</p></button></p>")) in
  r = lit "<p><p>a</p></p>" ∧
  sanitizeInput reparsing_purifier validator_escape (JsString r)
  = lit "<p></p><p>a</p><p></p>".
Proof.
  split; [|by vm_compute].
  intros t Ht. unfold reparsing_purifier.
  rewrite !bool_decide_eq_false_2; [done| |];
    intros ->; apply Ht; apply (bool_decide_unpack _); by vm_compute.
Qed.

Lemma compareVersions_swap_witness :
  let st : Store := {[ doc := [hello; hello_brave] ]} in
  ∃ cAB cBA,
    compareVersions doc (lit "1") (lit "2") st = (Ok cAB, st) ∧
    compareVersions doc (lit "2") (lit "1") st = (Ok cBA, st) ∧
    added (differences cAB) = [lit "Hello brave world"] ∧
    added (differences cBA) = removed (differences cAB).
Proof.
  intros st.
  assert (H1 : ∃ v, v ∈ [hello; hello_brave] ∧ v_id v = lit "1").
  { exists hello. split; [left|done]. }
  assert (H2 : ∃ v, v ∈ [hello; hello_brave] ∧ v_id v = lit "2").
  { exists hello_brave. split; [right; left|done]. }
  destruct (compareVersions_swap st doc (lit "1") (lit "2") [hello; hello_brave]
              ltac:(done) ltac:(done) ltac:(done) ltac:(done) H1 H2)
    as (cAB & cBA & HAB & HBA & Hadd & _).
  exists cAB, cBA. split_and!; try done.
  vm_compute in HAB. by injection HAB as <-.
Defined.

(** The round trip on the empty store, where every id is new. *)
Example saveVersion_then_getVersion_on_new_id :
  ∃ v st',
    saveVersion plain_text validator_escape doc (JsString (lit "Hello world"))
      JsUndefined JsUndefined ∅ (mkClock 7 7) ∅ = (Ok v, st') ∧
    getVersion doc (v_id v) st' = (Ok (Some v), st') ∧
    v_content v = lit "Hello world" ∧
    v_metadata v !! lit "wordCount" = Some (MNumber 2).
Proof.
  assert (Hfresh : ∀ w : Version, w ∈ default [] ((∅ : Store) !! doc) →
                     v_id w ≠ Number_toString (Date_now (mkClock 7 7))).
  { intros w Hw. vm_compute in Hw. inversion Hw. }
  destruct (saveVersion_then_getVersion plain_text validator_escape
              ∅ doc (JsString (lit "Hello world")) JsUndefined JsUndefined ∅ (mkClock 7 7)
              ltac:(done) ltac:(done) Hfresh)
    as (v & st' & Hsave & Hget & Hc & _ & Hw & _).
  exists v, st'. split_and!.
  - exact Hsave.
  - exact Hget.
  - rewrite Hc. by vm_compute.
  - rewrite Hw, Hc. by vm_compute.
Qed.

(** C3, at the failing input.  The id of a revision is the reading of
    [Date.now()], which two saves within one millisecond share.  After a
    save of the text first and, at the same reading, a save of the text
    second draft with the action import, [getVersion] called with the id
    of the revision the second save returned finds the first revision of
    the log with that id: content first, action edit, one word, where the
    revision returned has content second draft, action import and two
    words. *)
Theorem saveVersion_then_getVersion_in_one_millisecond :
  let st :=
    (saveVersion plain_text validator_escape doc (JsString (lit "first"))
       JsUndefined JsUndefined ∅ (mkClock 5 5) ∅).2 in
  match saveVersion plain_text validator_escape doc (JsString (lit "second draft"))
          JsUndefined (JsString (lit "import")) ∅ (mkClock 5 5) st with
  | (Ok returned, st') =>
      v_content returned = lit "second draft" ∧
      v_action returned = lit "import" ∧
      v_metadata returned !! lit "wordCount" = Some (MNumber 2) ∧
      (v_content <$> default [] (st' !! doc)) = [lit "first"; lit "second draft"] ∧
      match fst (getVersion doc (v_id returned) st') with
      | Ok (Some fetched) =>
          v_content fetched = lit "first" ∧
          v_action fetched = lit "edit" ∧
          v_metadata fetched !! lit "wordCount" = Some (MNumber 1)
      | _ => False
      end
  | _ => False
  end.
Proof. vm_compute. by split_and!. Qed.

Lemma saveVersion_accepts_content_sanitized_to_empty_witness :
  ∃ v st' log,
    saveVersion plain_text validator_escape doc (JsString [quot]) JsUndefined JsUndefined ∅
      (mkClock 7 7) ∅
    = (Ok v, st') ∧
    st' !! doc = Some log ∧ last log = Some v ∧ v_content v = [] ∧
    v_metadata v !! lit "lineCount" = Some (MNumber 1).
Proof.
  destruct (saveVersion_accepts_content_sanitized_to_empty plain_text validator_escape
              ∅ doc [quot] JsUndefined JsUndefined ∅ (mkClock 7 7)
              ltac:(done) ltac:(done) ltac:(by vm_compute))
    as (v & st' & log & Hsave & Hlog & Hlast & Hc & _ & _ & Hl).
  by exists v, st', log.
Defined.

Lemma export_payload_contains_sanitized_content_witness :
  let options := mkExportOptions true false None None None None in
  let env := mkExportEnv (lit "2025-01-02T03:04:05.678Z") (lit "2025-01-02T03:04:05.678Z")
               (lit "1/2/2025") (lit "3:04:05 AM") true in
  ∃ txt md,
    exportToText plain_text validator_escape (lit " Hello; world ") options env = Ok txt ∧
    exportToMarkdown plain_text validator_escape stringify_empty
      (lit " Hello; world ") options env = Ok md ∧
    e_content txt
    = lit "Title: Exported Document" ++ [LF] ++ lit "Date: 1/2/2025" ++ [LF]
      ++ lit "Time: 3:04:05 AM" ++ [LF] ++ lit "Author: Meet with AI" ++ [LF; LF]
      ++ lit "---" ++ [LF; LF] ++ lit "Hello world" ∧
    e_content md
    = lit "Hello world" ++ [LF; LF] ++ lit "---" ++ [LF]
      ++ lit "*Exported from Meet with AI*" ++ [LF] ++ lit "*Date: 1/2/2025*" ++ [LF]
      ++ lit "*Time: 3:04:05 AM*".
Proof.
  intros options env.
  destruct (export_payload_contains_sanitized_content plain_text validator_escape
              stringify_empty (lit " Hello; world ") options env
              ltac:(done) ltac:(done))
    as ((txt & Htxt & _ & Ht) & (md & Hmd & _ & Hc) & _).
  exists txt, md. split_and!; [done|done| |].
  - rewrite Ht. by vm_compute.
  - rewrite Hc. by vm_compute.
Defined.

Lemma restoreVersion_appends_copy_witness :
  let st : Store := {[ doc := [hello; hello_brave] ]} in
  ∃ r,
    restoreVersion plain_text validator_escape doc (lit "1") JsUndefined (mkClock 3 3) st
    = (Ok r, <[doc := [hello; hello_brave; r]]> st) ∧
    v_content r = lit "Hello world" ∧
    v_action r = lit "restore" ∧
    v_metadata r !! lit "restoredFrom" = Some (MString (lit "1")).
Proof.
  intros st.
  pose proof (restoreVersion_appends_copy plain_text validator_escape
                st doc (lit "1") JsUndefined (mkClock 3 3) ltac:(done) ltac:(done)) as H.
  cbv zeta in H.
  change (find_version (lit "1") (default [] (st !! doc))) with (Some hello) in H.
  destruct (H ltac:(done)) as (r & Hr & _ & _ & Hlog & Hc & _ & _ & Ha & Hfrom & _).
  exists r. split_and!.
  - rewrite Hr, Hlog by (vm_compute; lia). reflexivity.
  - rewrite Hc. by vm_compute.
  - apply Ha. by vm_compute.
  - exact Hfrom.
Defined.

(** C2 as stated fails at the retention cap, whatever the purifier:
    restoring revision 1 of the full log appends the copy and the
    retention step then drops the first stored revision, which is
    revision 1 itself. *)
Lemma restoreVersion_evicts_restored_revision :
  ¬ ∃ purify, restoreVersion_keeps_and_appends purify validator_escape.
Proof.
  intros [purify H].
  destruct (H {[ doc := full_log ]} doc full_log (revision 1) JsUndefined (mkClock 51 51))
    as (r & st' & log' & Hr & Hlog' & Hin & _).
  { apply lookup_singleton_eq. }
  { by apply (bool_decide_unpack _). }
  rewrite (restoreVersion_found _ _ _ _ _ _ _ (revision 1)) in Hr by done.
  rewrite saveVersion_ok in Hr by done.
  injection Hr as <- <-.
  rewrite lookup_insert_eq in Hlog'. injection Hlog' as <-.
  change (default [] (_ !! doc)) with full_log in Hin.
  rewrite push_capped_eq in Hin.
  apply (list_elem_of_fmap_2 v_id) in Hin.
  rewrite fmap_app in Hin.
  assert (Hnot : v_id (revision 1) ∉ (v_id <$> tail full_log) ++ [Number_toString 51]).
  { apply (bool_decide_unpack _). by vm_compute. }
  exact (Hnot Hin).
Qed.

(** The order of [getVersions] on the two saves of one timestamp. *)
Example getVersions_newest_first_stable_on_tie :
  let w := run plain_text validator_escape same_time_saves in
  ∃ l, fst (getVersions doc w.1) = Ok l ∧
       v_content <$> l = [lit "first"; lit "second"] ∧
       StronglySorted newestFirst l ∧
       fst (getLatestVersion doc w.1) = Ok (head l).
Proof.
  intros w.
  destruct (getVersions_newest_first_stable plain_text validator_escape
              same_time_saves doc ltac:(done))
    as (l & Hl & _ & Hsorted & _ & Hlatest).
  exists l. split_and!; try done.
  vm_compute in Hl. by injection Hl as <-.
Qed.

(** With any purifier the order of [getVersions] on that run is not the
    one that puts the revision inserted last first. *)
Lemma getVersions_tie_lists_first_insertion_first :
  ¬ ∃ purify, getVersions_latest_insertion_first purify validator_escape.
Proof.
  intros [purify H].
  destruct (H same_time_saves doc ltac:(done)) as (l & Hl & _ & Hties & _).
  rewrite getVersions_ok in Hl by done. injection Hl as <-.
  specialize (Hties 5).
  apply (fmap_sublist v_id) in Hties.
  vm_compute in Hties.
  repeat match goal with
         | Hs : sublist _ _ |- _ => inversion Hs; clear Hs; subst
         end.
Qed.

(** C5, at the failing input.  The comparator of [getVersions] looks at
    the timestamps only and the sort is stable, so revisions of one
    timestamp stay in the order of their creation.  After a save of the
    text first and a save of the text second, both stamped 5, the log
    holds first and then second; [getVersions] lists first before second,
    and [getLatestVersion] returns first, the revision saved earlier, not
    the one saved last. *)
Theorem getLatestVersion_on_equal_timestamps :
  let st := (run plain_text validator_escape same_time_saves).1 in
  v_content <$> default [] (st !! doc) = [lit "first"; lit "second"] ∧
  v_timestamp <$> default [] (st !! doc) = [5; 5] ∧
  match fst (getVersions doc st) with
  | Ok l => v_content <$> l = [lit "first"; lit "second"]
  | Throw _ => False
  end ∧
  match fst (getLatestVersion doc st) with
  | Ok (Some v) => v_content v = lit "first"
  | _ => False
  end.
Proof. by vm_compute. Qed.

(** *** The samples are stores the service reaches *)

Example full_log_reached :
  (run plain_text validator_escape (save_x <$> seqZ 1 50)).1 = {[ doc := full_log ]}.
Proof. vm_compute. reflexivity. Qed.

Example hello_log_reached :
  (run plain_text validator_escape
     [ save_text "Hello world" (mkClock 1 1);
       save_text "Hello brave world" (mkClock 2 2) ]).1
  = {[ doc := [hello; hello_brave] ]}.
Proof. vm_compute. reflexivity. Qed.

(** *** Further behaviour at the edges *)

(** A revision whose content was sanitized to nothing cannot be
    restored: the copy is refused by the emptiness test of [saveVersion]. *)
Example restoreVersion_of_empty_content_throws :
  let st := (run plain_text validator_escape
               [OpSaveVersion doc (JsString [quot]) JsUndefined JsUndefined ∅
                  (mkClock 1 1)]).1 in
  restoreVersion plain_text validator_escape doc (lit "1") JsUndefined (mkClock 2 2) st
  = (Throw DocumentIdAndContentRequired, st).
Proof. by vm_compute. Qed.

(** A content that is not a string is escaped and not stripped: an array
    of two strings is stored with the comma that joins them, with line
    feeds, semicolons and outer spaces as they came, and here with a line
    count of 2. *)
Example saveVersion_of_an_array :
  let content := JsArray [JsString (lit " a;"); JsString ([LF] ++ lit "b ")] in
  match fst (saveVersion plain_text validator_escape doc content
               (JsArray [JsString (lit " u;")]) JsNull ∅ (mkClock 1 1) ∅) with
  | Ok v =>
      v_content v = lit " a;," ++ [LF] ++ lit "b " ∧
      v_userId v = lit " u;" ∧
      v_action v = lit "null" ∧
      v_metadata v !! lit "lineCount" = Some (MNumber 2)
  | Throw _ => False
  end.
Proof. by vm_compute. Qed.

(** What [saveVersion] takes for a content, a user id and an action: a
    zero, [null] and the empty string are no content, while an empty
    array is one, stored as the empty string; a falsy user id is replaced
    by the word anonymous; only an absent action is replaced by the word
    edit. *)
Example saveVersion_of_other_values :
  let save content userId action :=
    fst (saveVersion plain_text validator_escape doc content userId action ∅
           (mkClock 1 1) ∅) in
  save (JsNumber Zero) JsUndefined JsUndefined = Throw DocumentIdAndContentRequired ∧
  save (JsNumber NotANumber) JsUndefined JsUndefined = Throw DocumentIdAndContentRequired ∧
  save JsNull JsUndefined JsUndefined = Throw DocumentIdAndContentRequired ∧
  save (JsBool false) JsUndefined JsUndefined = Throw DocumentIdAndContentRequired ∧
  save (JsString []) JsUndefined JsUndefined = Throw DocumentIdAndContentRequired ∧
  save JsUndefined JsUndefined JsUndefined = Throw DocumentIdAndContentRequired ∧
  match save (JsArray []) (JsNumber Zero) (JsString []) with
  | Ok v => v_content v = [] ∧ v_userId v = lit "anonymous" ∧ v_action v = []
  | Throw _ => False
  end ∧
  match save (JsNumber (Finite false 5 1)) (JsNumber (Finite false 7 1)) (JsBool false) with
  | Ok v => v_content v = lit "5" ∧ v_userId v = lit "7" ∧ v_action v = lit "false"
  | Throw _ => False
  end ∧
  match save (JsBool true) (JsString []) JsUndefined with
  | Ok v => v_content v = lit "true" ∧ v_userId v = lit "anonymous" ∧ v_action v = lit "edit"
  | Throw _ => False
  end.
Proof. by vm_compute. Qed.

(** After a listing the log is stored newest first, and a cleanup keeps
    the end of the stored array: the two oldest revisions. *)
Example cleanupOldVersions_after_getVersions :
  let st := (run plain_text validator_escape
               ((save_x <$> seqZ 1 5)
                ++ [OpGetVersions doc; OpCleanupOldVersions doc 2])).1 in
  v_timestamp <$> default [] (st !! doc) = [2; 1].
Proof. by vm_compute. Qed.

(** Without a listing in between, the retention step drops the oldest
    revision and a cleanup keeps the newest ones. *)
Example retention_without_listing :
  let st := (run plain_text validator_escape (save_x <$> seqZ 1 51)).1 in
  v_timestamp <$> default [] (st !! doc) = seqZ 2 50 ∧
  v_timestamp <$> default [] ((exec plain_text validator_escape
                                 (OpCleanupOldVersions doc 3) st) !! doc)
  = [49; 50; 51].
Proof. by vm_compute. Qed.

(** * More of the code: the store along runs, the routes, the exporters

    The rest of [versionHistory.js] and [exportService.js], the upload
    check of [security.js], and the route handlers of
    [routes/versionHistory.js] and [routes/export.js] that call them. *)

Section Coverage.

Variable purify : jsstring → jsstring.
Variable escape : jsstring → jsstring.

(** ** The store along runs *)

(** The document a call names. *)
Definition target (op : Op) : jsstring :=
  match op with
  | OpSaveVersion d _ _ _ _ _ => d
  | OpGetVersions d => d
  | OpGetVersion d _ => d
  | OpGetLatestVersion d => d
  | OpCompareVersions d _ _ => d
  | OpRestoreVersion d _ _ _ => d
  | OpCleanupOldVersions d _ => d
  end.

Definition failure {A} (r : result A) : option Error :=
  match r with
  | Ok _ => None
  | Throw e => Some e
  end.

(** The error a call throws, if it throws. *)
Definition thrown (op : Op) (st : Store) : option Error :=
  match op with
  | OpSaveVersion d c u a m clock =>
      failure (fst (saveVersion purify escape d c u a m clock st))
  | OpGetVersions d => failure (fst (getVersions d st))
  | OpGetVersion d v => failure (fst (getVersion d v st))
  | OpGetLatestVersion d => failure (fst (getLatestVersion d st))
  | OpCompareVersions d v1 v2 => failure (fst (compareVersions d v1 v2 st))
  | OpRestoreVersion d v u clock =>
      failure (fst (restoreVersion purify escape d v u clock st))
  | OpCleanupOldVersions d k => failure (fst (cleanupOldVersions d k st))
  end.

Definition isString (v : JsValue) : bool :=
  match v with
  | JsString _ => true
  | _ => false
  end.

(** The calls that pass a string as [content], as the JSDoc of
    [saveVersion] asks; [restoreVersion] passes the stored content, which
    is a string. *)
Definition stringContent (op : Op) : bool :=
  match op with
  | OpSaveVersion _ content _ _ _ _ => isString content
  | _ => true
  end.

(** The calls all of whose texts go through the string branch of the
    sanitizer: the content is a string, the user id is a string or falsy
    (it is then replaced by the word anonymous), and the action is a
    string or absent (it is then the word edit). *)
Definition stringArguments (op : Op) : bool :=
  match op with
  | OpSaveVersion _ content userId action _ _ =>
      isString content && isString (orAnonymous userId) && isString (orEdit action)
  | OpRestoreVersion _ _ userId _ => isString (orAnonymous userId)
  | _ => true
  end.

(** A revision stored under document [d] all of whose texts went through
    the string branch of the sanitizer: filed under its own document id,
    with the string form of a number as id, and with stripped content,
    user id and action. *)
Definition sanitized_revision (d : jsstring) (v : Version) : Prop :=
  v_documentId v = d ∧
  (∃ n, v_id v = Number_toString n) ∧
  stripped (v_content v) = true ∧
  stripped (v_userId v) = true ∧
  stripped (v_action v) = true.

(** The three counts in the metadata are those of the stored content. *)
Definition stats_current (v : Version) : Prop :=
  v_metadata v !! lit "wordCount" = Some (MNumber (Z.of_nat (wordCount (v_content v)))) ∧
  v_metadata v !! lit "characterCount" = Some (MNumber (Z.of_nat (length (v_content v)))) ∧
  v_metadata v !! lit "lineCount"
  = Some (MNumber (Z.of_nat (length (split_char LF (v_content v))))).

Lemma split_char_absent sep s : sep ∉ s → split_char sep s = [s].
Proof.
  induction s as [|c s IH]; intros H; simpl; [done|].
  apply not_elem_of_cons in H as [Hc Hs].
  destruct (c =? sep)%N eqn:E; [apply N.eqb_eq in E; congruence|].
  by rewrite IH.
Qed.

Lemma stripped_no_LF s : stripped s = true → LF ∉ s.
Proof.
  intros (Ha & _ & _)%stripped_spec Hin.
  destruct (Ha LF Hin) as [_ Hc]. by vm_compute in Hc.
Qed.

Lemma stripped_single_line s : stripped s = true → split_char LF s = [s].
Proof. intros H. by apply split_char_absent, stripped_no_LF. Qed.

Lemma sanitizeInput_isString_stripped v :
  isString v = true → stripped (sanitizeInput purify escape v) = true.
Proof. destruct v; try done. intros _. apply sanitizeInput_string_stripped. Qed.

Lemma newVersion_sanitized d c u a m clock :
  isString c = true → isString (orAnonymous u) = true → isString (orEdit a) = true →
  sanitized_revision d (newVersion purify escape d c u a m clock).
Proof.
  intros Hc Hu Ha.
  unfold sanitized_revision, newVersion. cbn [v_documentId v_id v_content v_userId v_action].
  split_and!; [done|by eexists|..]; by apply sanitizeInput_isString_stripped.
Qed.

Lemma newVersion_stats d c u a m clock :
  stats_current (newVersion purify escape d c u a m clock).
Proof.
  unfold stats_current, newVersion. cbn [v_metadata v_content].
  by rewrite withStats_wordCount, withStats_characterCount, withStats_lineCount.
Qed.

(** The revision a call creates is the one [saveVersion] builds for the
    document the call names, from the content the call passes or, for a
    restore, from a stored content. *)
Lemma created_newVersion op st v :
  created purify escape op st = [v] →
  target op ≠ [] ∧
  ∃ c u a m clock,
    v = newVersion purify escape (target op) c u a m clock ∧
    (stringContent op = true → isString c = true) ∧
    (stringArguments op = true →
     isString c = true ∧ isString (orAnonymous u) = true ∧ isString (orEdit a) = true).
Proof.
  destruct op as [d c u a m clock|d|d w|d|d v1 v2|d w u clock|d k]; simpl; try done.
  - destruct (decide (d = [])) as [->|Hd]; [done|].
    destruct (ToBoolean c) eqn:Hc.
    2: { by rewrite saveVersion_throw by auto. }
    rewrite saveVersion_ok by done. simpl. intros [= <-]. split; [done|].
    eexists c, u, a, m, clock. split_and!; [done|done|].
    by intros [[? ?]%andb_prop ?]%andb_prop.
  - destruct (decide (d = [])) as [->|Hd]; [done|].
    destruct (decide (w = [])) as [->|Hw].
    { unfold restoreVersion. by rewrite orb_true_r. }
    destruct (find_version w (default [] (st !! d))) as [x|] eqn:Hfind.
    2: { by rewrite restoreVersion_not_found by done. }
    rewrite (restoreVersion_found _ _ _ _ _ _ _ x) by done.
    destruct (ToBoolean (JsString (v_content x))) eqn:Hc.
    2: { by rewrite saveVersion_throw by auto. }
    rewrite saveVersion_ok by done. simpl. intros [= <-]. split; [done|].
    by eexists _, _, _, _, _.
Qed.

(** What a call does to the log of one document, with the revision an
    append adds. *)
Lemma exec_lookup_created op st d :
  exec purify escape op st !! d = st !! d
  ∨ (∃ v, created purify escape op st = [v] ∧ target op = d ∧
          exec purify escape op st !! d
          = Some (push_capped (default [] (st !! d)) v))
  ∨ (∃ log, st !! d = Some log ∧
            exec purify escape op st !! d = Some (Array_sort byTimestampDesc log))
  ∨ (∃ log start, st !! d = Some log ∧
                  exec purify escape op st !! d = Some (Array_slice start log)).
Proof.
  destruct op as [d' c u a m clock|d'|d' v|d'|d' v1 v2|d' v u clock|d' k]; simpl.
  - destruct (decide (d' = [])) as [->|Hd]; [by left|].
    destruct (ToBoolean c) eqn:Hc.
    2: { rewrite saveVersion_throw by auto. by left. }
    rewrite saveVersion_ok by done. simpl.
    destruct (decide (d' = d)) as [->|Hne].
    + right; left. eexists. split_and!; [done|done|]. by rewrite lookup_insert_eq.
    + left. by rewrite lookup_insert_ne.
  - destruct (decide (d' = [])) as [->|Hd]; [by left|].
    rewrite getVersions_ok by done. simpl.
    destruct (st !! d') as [log|] eqn:Hlog; [|by left].
    destruct (decide (d' = d)) as [->|Hne].
    + right; right; left. exists log. by rewrite lookup_insert_eq.
    + left. by rewrite lookup_insert_ne.
  - left. unfold getVersion, bind, getStore, ret, throw.
    by destruct (falsy d' || falsy v).
  - destruct (decide (d' = [])) as [->|Hd]; [by left|].
    rewrite getLatestVersion_ok, getVersions_ok by done. simpl.
    destruct (st !! d') as [log|] eqn:Hlog; [|by left].
    destruct (decide (d' = d)) as [->|Hne].
    + right; right; left. exists log. by rewrite lookup_insert_eq.
    + left. by rewrite lookup_insert_ne.
  - left. unfold compareVersions, bind, getStore, ret, throw.
    destruct (falsy d' || falsy v1 || falsy v2); [done|]. simpl.
    by destruct (find_version v1 (default [] (st !! d'))),
               (find_version v2 (default [] (st !! d'))).
  - destruct (decide (d' = [])) as [->|Hd]; [by left|].
    destruct (decide (v = [])) as [->|Hv].
    { left. unfold restoreVersion. by rewrite orb_true_r. }
    destruct (find_version v (default [] (st !! d'))) as [w|] eqn:Hfind.
    2: { rewrite restoreVersion_not_found by done. by left. }
    rewrite (restoreVersion_found _ _ _ _ _ _ _ w) by done.
    destruct (ToBoolean (JsString (v_content w))) eqn:Hc.
    2: { rewrite saveVersion_throw by auto. by left. }
    rewrite saveVersion_ok by done. simpl.
    destruct (decide (d' = d)) as [->|Hne].
    + right; left. eexists. split_and!; [done|done|]. by rewrite lookup_insert_eq.
    + left. by rewrite lookup_insert_ne.
  - unfold cleanupOldVersions, bind, getStore, putStore, ret, throw.
    destruct (falsy d'); [by left|]. simpl.
    destruct (st !! d') as [log|] eqn:Hlog; [|by left].
    destruct (Z.of_nat (length log) <=? k); [by left|]. simpl.
    destruct (decide (d' = d)) as [->|Hne].
    + right; right; right. exists log, (- k). by rewrite lookup_insert_eq.
    + left. by rewrite lookup_insert_ne.
Qed.

(** A property that every revision created by a call of the kind
    [admitted] has holds of every revision stored along a run of such
    calls, and no log is filed under the empty document id. *)
Lemma run_stored (admitted : Op → bool) (P : jsstring → Version → Prop) :
  (∀ op st v, admitted op = true → created purify escape op st = [v] → P (target op) v) →
  ∀ ops, forallb admitted ops = true →
    map_Forall (λ d log, d ≠ [] ∧ Forall (P d) log) (run purify escape ops).1.
Proof.
  intros HP ops. induction ops as [|op ops IH] using rev_ind; intros Hall.
  - apply map_Forall_empty.
  - rewrite forallb_app in Hall. apply andb_prop in Hall as [Hops Hop].
    simpl in Hop. rewrite andb_true_r in Hop. specialize (IH Hops).
    rewrite run_snoc. unfold step. cbn [fst].
    set (st := (run purify escape ops).1) in *.
    intros d log' Hlog'.
    destruct (exec_lookup_created op st d)
      as [Heq|[(v & Hv & Hd & Heq)|[(log & Hlog & Heq)|(log & k & Hlog & Heq)]]];
      rewrite Heq in Hlog'.
    + by apply IH.
    + injection Hlog' as <-. subst d.
      split; [by apply (created_newVersion op st v)|].
      apply Forall_forall. intros w [Hw| ->]%push_capped_elem_of; [|by apply (HP op st)].
      destruct (st !! target op) as [log|] eqn:Hlog; simpl in Hw;
        [|by apply elem_of_nil in Hw].
      destruct (IH (target op) log Hlog) as [_ Hold].
      by apply (proj1 (Forall_forall _ _) Hold).
    + injection Hlog' as <-. destruct (IH d log Hlog) as [Hd Hold].
      split; [done|]. by rewrite Array_sort_perm.
    + injection Hlog' as <-. destruct (IH d log Hlog) as [Hd Hold].
      split; [done|]. unfold Array_slice. by apply Forall_drop.
Qed.

Lemma forallb_all_true {A} (l : list A) : forallb (λ _, true) l = true.
Proof. by induction l. Qed.

(** X1.  Along every run, the log of every document holds at most 50
    revisions. *)
Theorem retention_cap_on_every_run (ops : list Op) (d : jsstring) :
  (length (default [] ((run purify escape ops).1 !! d)) ≤ 50)%nat.
Proof.
  destruct ((run purify escape ops).1 !! d) as [log|] eqn:Hlog; simpl; [|lia].
  by apply (run_inv purify escape ops d log).
Qed.

(** X2.  A call leaves the store as it is or replaces the log of the one
    document it names; the logs of all other documents are untouched, and
    no document other than the named one appears. *)
Theorem exec_changes_only_target (op : Op) (st : Store) :
  exec purify escape op st = st
  ∨ ∃ log, exec purify escape op st = <[target op := log]> st.
Proof.
  destruct op as [d c u a m clock|d|d v|d|d v1 v2|d v u clock|d k]; simpl.
  - unfold saveVersion, bind, getStore, putStore, ret, throw.
    destruct (falsy d || negb (ToBoolean c)); [by left|]. right. by eexists.
  - unfold getVersions, bind, getStore, putStore, ret, throw.
    destruct (falsy d); [by left|]. simpl.
    destruct (st !! d); [right; by eexists|by left].
  - left. unfold getVersion, bind, getStore, ret, throw.
    by destruct (falsy d || falsy v).
  - unfold getLatestVersion, getVersions, bind, getStore, putStore, ret, throw.
    destruct (falsy d); [by left|]. simpl.
    destruct (st !! d); [right; by eexists|by left].
  - left. unfold compareVersions, bind, getStore, ret, throw.
    destruct (falsy d || falsy v1 || falsy v2); [done|]. simpl.
    by destruct (find_version v1 (default [] (st !! d))),
               (find_version v2 (default [] (st !! d))).
  - unfold restoreVersion, getVersion, saveVersion, bind, getStore, putStore, ret, throw.
    destruct (falsy d || falsy v); [by left|]. simpl.
    destruct (find_version v (default [] (st !! d))) as [w|]; [|by left].
    destruct (falsy d || negb _); [by left|].
    right. by eexists.
  - unfold cleanupOldVersions, bind, getStore, putStore, ret, throw.
    destruct (falsy d); [by left|]. simpl.
    destruct (st !! d) as [log|]; [|by left].
    destruct (Z.of_nat (length log) <=? k); [by left|]. right. by eexists.
Qed.

(** X3.  Along every run of calls whose content is a string, whose user
    id is a string or falsy and whose action is a string or absent, no log
    is filed under the empty document id, and every stored revision is
    filed under its own document id, has the string form of a number as
    id, and has content, user id and action free of quote characters,
    semicolons and control characters and without white space at either
    end. *)
Theorem stored_revisions_are_sanitized (ops : list Op) :
  forallb stringArguments ops = true →
  map_Forall (λ d log, d ≠ [] ∧ Forall (sanitized_revision d) log)
    (run purify escape ops).1.
Proof.
  apply run_stored. intros op st v Hop Hv.
  apply created_newVersion in Hv as (_ & c & u & a & m & clock & -> & _ & Hs).
  destruct (Hs Hop) as (Hc & Hu & Ha). by apply newVersion_sanitized.
Qed.

Lemma stored_contents_have_no_LF ops d log :
  forallb stringContent ops = true →
  (run purify escape ops).1 !! d = Some log → Forall (λ v, LF ∉ v_content v) log.
Proof.
  intros Hops Hlog.
  pose proof (run_stored stringContent (λ _ v, LF ∉ v_content v)) as H.
  eapply H; [|exact Hops|exact Hlog].
  intros op st v Hop Hv.
  apply created_newVersion in Hv as (_ & c & u & a & m & clock & -> & Hs & _).
  by apply stripped_no_LF, sanitizeInput_isString_stripped, Hs.
Qed.

(** X4.  Along every run, whatever values the calls pass, the word,
    character and line counts in the metadata of every stored revision
    are those of its stored content. *)
Theorem stored_stats_are_current (ops : list Op) :
  map_Forall (λ d log, Forall stats_current log) (run purify escape ops).1.
Proof.
  pose proof (run_stored (λ _, true) (λ _ v, stats_current v)) as H.
  intros d log Hlog. eapply H; [|apply forallb_all_true|exact Hlog].
  intros op st v _ Hv.
  apply created_newVersion in Hv as (_ & c & u & a & m & clock & -> & _).
  apply newVersion_stats.
Qed.

(** X5.  A call that throws leaves the store exactly as it was. *)
Theorem throwing_call_changes_nothing (op : Op) (st : Store) :
  is_Some (thrown op st) → exec purify escape op st = st.
Proof.
  destruct op as [d c u a m clock|d|d v|d|d v1 v2|d v u clock|d k]; simpl.
  - unfold saveVersion, bind, getStore, putStore, ret, throw.
    destruct (falsy d || negb (ToBoolean c)); [done|]. simpl. by intros [? ?].
  - unfold getVersions, bind, getStore, putStore, ret, throw.
    destruct (falsy d); [done|]. simpl.
    destruct (st !! d); simpl; by intros [? ?].
  - unfold getVersion, bind, getStore, ret, throw.
    by destruct (falsy d || falsy v).
  - unfold getLatestVersion, getVersions, bind, getStore, putStore, ret, throw.
    destruct (falsy d); [done|]. simpl.
    destruct (st !! d); simpl; by intros [? ?].
  - unfold compareVersions, bind, getStore, ret, throw.
    destruct (falsy d || falsy v1 || falsy v2); [done|]. simpl.
    by destruct (find_version v1 (default [] (st !! d))),
               (find_version v2 (default [] (st !! d))).
  - unfold restoreVersion, getVersion, saveVersion, bind, getStore, putStore, ret, throw.
    destruct (falsy d || falsy v); [done|]. simpl.
    destruct (find_version v (default [] (st !! d))) as [w|]; [|done].
    destruct (falsy d || negb _); [done|].
    simpl. by intros [? ?].
  - unfold cleanupOldVersions, bind, getStore, putStore, ret, throw.
    destruct (falsy d); [done|]. simpl.
    destruct (st !! d) as [log|]; [|done].
    destruct (Z.of_nat (length log) <=? k); [done|]. simpl. by intros [? ?].
Qed.

(** ** Listing, fetching and the latest revision *)

Lemma Array_sort_sorted_id l :
  StronglySorted newestFirst l → Array_sort byTimestampDesc l = l.
Proof.
  induction 1 as [|x l Hs IH Hx]; simpl; [done|].
  rewrite IH. destruct l as [|y r]; simpl; [done|].
  apply Forall_cons in Hx as [Hxy _]. unfold newestFirst in Hxy.
  unfold byTimestampDesc.
  destruct (v_timestamp y - v_timestamp x <=? 0) eqn:E; [done|].
  apply Z.leb_gt in E. lia.
Qed.

Lemma sorted_head_newest l v :
  head (Array_sort byTimestampDesc l) = Some v →
  v ∈ l ∧ ∀ w, w ∈ l → v_timestamp w ≤ v_timestamp v.
Proof.
  intros Hh. pose proof (Array_sort_sorted l) as Hs.
  pose proof (Array_sort_perm byTimestampDesc l) as Hp.
  destruct (Array_sort byTimestampDesc l) as [|h t]; [done|].
  injection Hh as ->. split.
  - rewrite <-Hp. left.
  - intros w Hw. rewrite <-Hp in Hw.
    apply StronglySorted_inv in Hs as [_ Hall].
    apply elem_of_cons in Hw as [->|Hw]; [lia|].
    by apply (proj1 (Forall_forall _ _) Hall).
Qed.

Lemma sorted_head_None l : head (Array_sort byTimestampDesc l) = None → l = [].
Proof.
  intros Hh. pose proof (Array_sort_perm byTimestampDesc l) as Hp.
  destruct (Array_sort byTimestampDesc l); [|done].
  by apply Permutation_nil_l in Hp.
Qed.

(** X6.  Listing twice is listing once: a second [getVersions] returns the
    same list and leaves the store as the first one left it. *)
Theorem getVersions_twice (st : Store) (d : jsstring) :
  getVersions d (getVersions d st).2 = ((getVersions d st).1, (getVersions d st).2).
Proof.
  destruct (decide (d = [])) as [->|Hd]; [done|].
  rewrite !getVersions_ok by done. cbn [fst snd].
  destruct (st !! d) as [log|] eqn:Hlog.
  - rewrite lookup_insert_eq. cbv [default from_option id].
    rewrite Array_sort_sorted_id by apply Array_sort_sorted.
    by rewrite insert_insert_eq.
  - by rewrite Hlog.
Qed.

(** X7.  [getLatestVersion] throws only for an empty document id; else it
    returns null exactly when the document has no revision, and otherwise
    a stored revision whose timestamp no stored revision exceeds. *)
Theorem getLatestVersion_is_newest (st : Store) (d : jsstring) :
  match fst (getLatestVersion d st) with
  | Ok (Some v) =>
      v ∈ default [] (st !! d) ∧
      ∀ w, w ∈ default [] (st !! d) → v_timestamp w ≤ v_timestamp v
  | Ok None => d ≠ [] ∧ default [] (st !! d) = []
  | Throw e => d = [] ∧ e = DocumentIdRequired
  end.
Proof.
  destruct (decide (d = [])) as [->|Hd]; [done|].
  rewrite getLatestVersion_ok by done. cbn [fst].
  destruct (head _) as [v|] eqn:Hh.
  - by apply sorted_head_newest.
  - split; [done|]. by apply sorted_head_None.
Qed.

(** X8.  After a save whose timestamp is later than that of every stored
    revision of the document, [getLatestVersion] returns the revision
    just saved. *)
Theorem getLatestVersion_after_saveVersion
    (st : Store) (d : jsstring) (c u a : JsValue)
    (m : gmap jsstring MetaValue) (clock : Clock) :
  d ≠ [] → ToBoolean c = true →
  (∀ w, w ∈ default [] (st !! d) → v_timestamp w < new_Date clock) →
  fst (getLatestVersion d (saveVersion purify escape d c u a m clock st).2)
  = Ok (Some (newVersion purify escape d c u a m clock)).
Proof.
  intros Hd Hc Hlater. rewrite saveVersion_ok by done. cbn [snd].
  rewrite getLatestVersion_ok by done. cbn [fst].
  rewrite lookup_insert_eq. cbv [default from_option id].
  set (v := newVersion purify escape d c u a m clock).
  set (log := default [] (st !! d)) in *.
  destruct (head _) as [h|] eqn:Hh.
  - apply sorted_head_newest in Hh as [Hin Hmax].
    apply push_capped_elem_of in Hin as [Hin| ->]; [|done].
    assert (Hv : v ∈ push_capped log v).
    { rewrite push_capped_eq, elem_of_app, list_elem_of_singleton. by right. }
    specialize (Hmax v Hv). specialize (Hlater h Hin).
    change (v_timestamp v) with (new_Date clock) in Hmax. lia.
  - apply sorted_head_None in Hh. rewrite push_capped_eq in Hh.
    by apply app_nil in Hh as [_ ?].
Qed.

Lemma id_determines_revision (l : list Version) v w :
  NoDup (v_id <$> l) → v ∈ l → w ∈ l → v_id v = v_id w → v = w.
Proof.
  induction l as [|x l IH]; intros Hnd Hv Hw Hid; [by apply elem_of_nil in Hv|].
  rewrite fmap_cons in Hnd. apply NoDup_cons in Hnd as [Hx Hnd].
  apply elem_of_cons in Hv as [->|Hv]; apply elem_of_cons in Hw as [->|Hw].
  - done.
  - destruct Hx. rewrite Hid. by apply list_elem_of_fmap_2.
  - destruct Hx. rewrite <-Hid. by apply list_elem_of_fmap_2.
  - by apply IH.
Qed.

Lemma find_version_perm (l k : list Version) versionId :
  NoDup (v_id <$> l) → l ≡ₚ k → find_version versionId l = find_version versionId k.
Proof.
  intros Hnd Hp.
  destruct (find_version versionId l) as [v|] eqn:Hl,
           (find_version versionId k) as [w|] eqn:Hk; try done.
  - apply find_version_Some in Hl as [Hv Hvid], Hk as [Hw Hwid].
    rewrite <-Hp in Hw. f_equal. apply (id_determines_revision l); congruence.
  - apply find_version_Some in Hl as [Hv Hvid].
    rewrite Hp in Hv. by destruct (proj1 (find_version_None _ _) Hk v Hv).
  - apply find_version_Some in Hk as [Hw Hwid].
    rewrite <-Hp in Hw. by destruct (proj1 (find_version_None _ _) Hl w Hw).
Qed.

(** X9.  When the ids of a document's revisions are pairwise distinct,
    listing the document does not change what [getVersion] returns for
    any id. *)
Theorem getVersion_after_getVersions (st : Store) (d versionId : jsstring) :
  NoDup (v_id <$> default [] (st !! d)) →
  fst (getVersion d versionId (getVersions d st).2) = fst (getVersion d versionId st).
Proof.
  intros Hnd. unfold getVersion, bind, getStore, ret, throw.
  destruct (falsy d || falsy versionId) eqn:E; [done|].
  apply orb_false_elim in E as [Hd _].
  rewrite getVersions_ok by (by destruct d). cbn [fst snd].
  destruct (st !! d) as [log|] eqn:Hlog; [|by rewrite Hlog].
  rewrite lookup_insert_eq. cbv [default from_option id] in *. f_equal.
  symmetry. apply find_version_perm; [done|]. by rewrite Array_sort_perm.
Qed.

Lemma find_version_app_l versionId l k v :
  find_version versionId l = Some v → find_version versionId (l ++ k) = Some v.
Proof.
  unfold find_version. induction l as [|x l IH]; simpl; [done|].
  destruct (bool_decide (v_id x = versionId)); [done|]. apply IH.
Qed.

(** X10.  A save whose id is already carried by a stored revision of the
    document (a save within the same millisecond) cannot be fetched by
    that id while the log is below the cap: [getVersion] returns the
    first stored revision with the id, not the new one. *)
Theorem getVersion_finds_older_holder_of_id
    (st : Store) (d : jsstring) (c u a : JsValue)
    (m : gmap jsstring MetaValue) (clock : Clock) (w : Version) :
  d ≠ [] → ToBoolean c = true →
  (length (default [] (st !! d)) < 50)%nat →
  find_version (Number_toString (Date_now clock)) (default [] (st !! d)) = Some w →
  fst (getVersion d (Number_toString (Date_now clock))
         (saveVersion purify escape d c u a m clock st).2)
  = Ok (Some w).
Proof.
  intros Hd Hc Hlen Hfind. rewrite saveVersion_ok by done. cbn [snd].
  unfold getVersion, bind, getStore, ret.
  rewrite (falsy_false d) by done. simpl.
  rewrite (falsy_false (Number_toString _)) by apply Number_toString_nonempty.
  rewrite lookup_insert_eq. cbv [default from_option id fst].
  rewrite push_capped_below_cap by done. by rewrite (find_version_app_l _ _ _ w).
Qed.

(** X11.  For a document the store does not know and non-empty ids,
    listing returns the empty list, the latest revision and any fetched
    revision are null, a cleanup returns, comparing throws 'One or both
    versions not found' and restoring throws 'Version not found'; none of
    these calls creates an entry for the document. *)
Theorem unknown_document
    (st : Store) (d v1 v2 : jsstring) (u : JsValue) (clock : Clock) (k : Z) :
  d ≠ [] → v1 ≠ [] → v2 ≠ [] → st !! d = None →
  getVersions d st = (Ok [], st) ∧
  getLatestVersion d st = (Ok None, st) ∧
  getVersion d v1 st = (Ok None, st) ∧
  cleanupOldVersions d k st = (Ok tt, st) ∧
  compareVersions d v1 v2 st = (Throw OneOrBothVersionsNotFound, st) ∧
  restoreVersion purify escape d v1 u clock st = (Throw VersionNotFound, st).
Proof.
  intros Hd H1 H2 Hnone.
  unfold getVersions, getLatestVersion, getVersions, getVersion, cleanupOldVersions,
    compareVersions, restoreVersion, getVersion, bind, getStore, putStore, ret, throw.
  rewrite !falsy_false by done. simpl. by rewrite !Hnone.
Qed.

(** ** Cleaning up, in general *)

Lemma cleanupOldVersions_slices st d (k : Z) :
  d ≠ [] →
  cleanupOldVersions d k st
  = (Ok tt,
     match st !! d with
     | Some log =>
         if Z.of_nat (length log) <=? k then st
         else <[d := Array_slice (- k) log]> st
     | None => st
     end).
Proof.
  intros Hd. unfold cleanupOldVersions, bind, getStore, putStore, ret.
  rewrite falsy_false by done. simpl.
  destruct (st !! d) as [log|]; [|done].
  by destruct (Z.of_nat (length log) <=? k).
Qed.

(** X12.  For a non-empty document id and any integer keepCount,
    [cleanupOldVersions] returns and leaves of the log a suffix of the
    stored array: the whole log when keepCount is at least its length,
    the last keepCount entries when keepCount lies strictly between 0 and
    the length, and for a negative keepCount the log without its first
    -keepCount entries. *)
Theorem cleanupOldVersions_keeps_a_suffix (st : Store) (d : jsstring) (k : Z) :
  d ≠ [] →
  let log := default [] (st !! d) in
  let log' := default [] ((cleanupOldVersions d k st).2 !! d) in
  (cleanupOldVersions d k st).1 = Ok tt ∧
  log' `suffix_of` log ∧
  (Z.of_nat (length log) ≤ k → log' = log) ∧
  (0 < k < Z.of_nat (length log) → log' = drop (length log - Z.to_nat k) log) ∧
  (k < 0 → log' = drop (Z.to_nat (- k)) log).
Proof.
  intros Hd log log'. subst log log'. rewrite cleanupOldVersions_slices by done.
  cbn [fst snd]. split; [done|].
  destruct (st !! d) as [log|] eqn:Hlog.
  2: { rewrite Hlog. simpl. split_and!; try done. intros. by rewrite drop_nil. }
  destruct (Z.of_nat (length log) <=? k) eqn:E.
  - apply Z.leb_le in E. rewrite Hlog. simpl. split_and!; [done|done|lia|lia].
  - apply Z.leb_gt in E. rewrite lookup_insert_eq. simpl. split_and!.
    + apply suffix_drop.
    + lia.
    + intros Hk. by apply Array_slice_last.
    + intros Hk. unfold Array_slice.
      destruct (- k <? 0) eqn:E'; [apply Z.ltb_lt in E'; lia|].
      destruct (decide (- k ≤ Z.of_nat (length log))).
      * by rewrite Z.min_l by lia.
      * rewrite Z.min_r by lia. rewrite Nat2Z.id.
        rewrite !drop_ge; [done|lia|lia].
Qed.

(** X13.  A cleanup that follows a listing keeps the oldest revisions:
    the listing leaves the log stored newest first, the cleanup keeps the
    last keepCount entries of it, and no kept revision is newer than a
    discarded one. *)
Theorem cleanupOldVersions_after_listing_keeps_oldest
    (st : Store) (d : jsstring) (k : Z) (log : list Version) :
  d ≠ [] → st !! d = Some log → 0 < k < Z.of_nat (length log) →
  ∃ discarded kept,
    (getVersions d st).1 = Ok (discarded ++ kept) ∧
    (cleanupOldVersions d k (getVersions d st).2).2 !! d = Some kept ∧
    length kept = Z.to_nat k ∧
    ∀ x y, x ∈ kept → y ∈ discarded → v_timestamp x ≤ v_timestamp y.
Proof.
  intros Hd Hlog Hk. rewrite getVersions_ok by done. rewrite Hlog. cbn [fst snd].
  set (sorted := Array_sort byTimestampDesc log).
  assert (Hlen : length sorted = length log).
  { subst sorted. by rewrite Array_sort_perm. }
  exists (take (length sorted - Z.to_nat k) sorted),
         (drop (length sorted - Z.to_nat k) sorted).
  split; [cbn [default]; by rewrite take_drop|].
  rewrite cleanupOldVersions_slices by done. cbn [snd].
  rewrite lookup_insert_eq.
  destruct (Z.of_nat (length sorted) <=? k) eqn:E; [apply Z.leb_le in E; lia|].
  rewrite lookup_insert_eq, Array_slice_last by lia.
  split; [done|]. split; [rewrite length_drop; lia|].
  intros x y Hx Hy.
  pose proof (Array_sort_sorted log) as Hs. fold sorted in Hs.
  rewrite <-(take_drop (length sorted - Z.to_nat k) sorted) in Hs.
  exact (StronglySorted_app_1_elem_of _ _ _ _ _ Hs Hy Hx).
Qed.

(** ** Comparing stored revisions *)

Lemma diffLines_single_lines a b :
  LF ∉ a → LF ∉ b →
  diffLines a b
  = if decide (a = b) then mkDifferences [] [] 0 0 0
    else mkDifferences [b] [a] 1 1 2.
Proof.
  intros Ha Hb. unfold diffLines. rewrite !split_char_absent by done.
  unfold includes. simpl.
  destruct (decide (a = b)) as [->|Hne].
  - rewrite bool_decide_eq_true_2 by left. done.
  - rewrite !bool_decide_eq_false_2; [done| |].
    + intros ?%list_elem_of_singleton. congruence.
    + intros ?%list_elem_of_singleton. congruence.
Qed.

(** X14.  Along every run of calls whose content is a string, comparing
    two revisions of a document reports no change when their contents are
    equal and otherwise exactly one added line, the second content, and
    one removed line, the first content: the sanitizer removes the line
    feeds of a string, so the stored contents are single lines. *)
Theorem compareVersions_of_stored_revisions
    (ops : list Op) (d versionId1 versionId2 : jsstring) :
  forallb stringContent ops = true →
  match fst (compareVersions d versionId1 versionId2 (run purify escape ops).1) with
  | Ok c =>
      let a := v_content (version1 c) in
      let b := v_content (version2 c) in
      differences c
      = if decide (a = b) then mkDifferences [] [] 0 0 0
        else mkDifferences [b] [a] 1 1 2
  | Throw e =>
      e = DocumentIdAndBothVersionIdsRequired ∨ e = OneOrBothVersionsNotFound
  end.
Proof.
  intros Hops. unfold compareVersions, bind, getStore, ret, throw.
  destruct (falsy d || falsy versionId1 || falsy versionId2); [by left|]. simpl.
  set (st := (run purify escape ops).1).
  destruct (find_version versionId1 (default [] (st !! d))) as [v1|] eqn:H1;
    [|by right].
  destruct (find_version versionId2 (default [] (st !! d))) as [v2|] eqn:H2;
    [|by right].
  simpl.
  apply find_version_Some in H1 as [H1 _], H2 as [H2 _].
  destruct (st !! d) as [log|] eqn:Hlog; simpl in H1, H2;
    [|by apply elem_of_nil in H1].
  pose proof (stored_contents_have_no_LF ops d log Hops Hlog) as Hall.
  rewrite Forall_forall in Hall.
  apply diffLines_single_lines; by apply Hall.
Qed.

(** ** Word counts and metadata *)

Lemma split_ws_from_words in_run s :
  List.filter (fun word => (0 <? length word)%nat) (split_ws_from in_run s) = []
  ↔ ∀ c, c ∈ s → isWhiteSpace c = true.
Proof.
  revert in_run. induction s as [|c s IH]; intros in_run; simpl.
  - split; [|done]. intros _ c Hc. by apply elem_of_nil in Hc.
  - destruct (isWhiteSpace c) eqn:E.
    + assert (Hsame :
        List.filter (fun word => (0 <? length word)%nat)
          (if in_run then split_ws_from true s else [] :: split_ws_from true s)
        = List.filter (fun word => (0 <? length word)%nat) (split_ws_from true s)).
      { by destruct in_run. }
      rewrite Hsame, IH. split.
      * intros H c' [->|Hc']%elem_of_cons; [done|by apply H].
      * intros H c' Hc'. apply H. by right.
    + split.
      * destruct (split_ws_from false s); simpl; discriminate.
      * intros H. specialize (H c ltac:(left)). congruence.
Qed.

(** X15.  The word count is 0 exactly for a text of white space only;
    for a sanitized text, which has no white space at its ends, it is 0
    exactly when the text is empty. *)
Theorem wordCount_zero :
  (∀ s, wordCount s = 0%nat ↔ ∀ c, c ∈ s → isWhiteSpace c = true) ∧
  (∀ s, wordCount (sanitizeInput purify escape (JsString s)) = 0%nat
        ↔ sanitizeInput purify escape (JsString s) = []).
Proof.
  assert (H : ∀ s, wordCount s = 0%nat ↔ ∀ c, c ∈ s → isWhiteSpace c = true).
  { intros s. unfold wordCount, split_ws.
    rewrite <-split_ws_from_words with (in_run := false).
    by rewrite length_zero_iff_nil. }
  split; [exact H|].
  intros s. rewrite H. split.
  - intros Hws.
    pose proof (sanitizeInput_string_stripped purify escape s) as Hs.
    apply stripped_spec in Hs as (_ & Hhead & _).
    destruct (sanitizeInput purify escape (JsString s)) as [|c r]; [done|].
    specialize (Hhead c eq_refl). specialize (Hws c ltac:(left)). congruence.
  - intros -> c Hc. by apply elem_of_nil in Hc.
Qed.

(** X16.  In the metadata of a new revision the three keys wordCount,
    characterCount and lineCount hold the counts of the sanitized
    content, whatever the caller supplied under them; every other key
    holds what the caller supplied. *)
Theorem newVersion_metadata
    (d : jsstring) (c u a : JsValue) (m : gmap jsstring MetaValue)
    (clock : Clock) (key : jsstring) :
  let v := newVersion purify escape d c u a m clock in
  v_metadata v !! key
  = if decide (key = lit "lineCount")
    then Some (MNumber (Z.of_nat (length (split_char LF (v_content v)))))
    else if decide (key = lit "characterCount")
    then Some (MNumber (Z.of_nat (length (v_content v))))
    else if decide (key = lit "wordCount")
    then Some (MNumber (Z.of_nat (wordCount (v_content v))))
    else m !! key.
Proof.
  intros v. subst v. unfold newVersion. cbn [v_metadata v_content].
  repeat case_decide; subst.
  - apply withStats_lineCount.
  - apply withStats_characterCount.
  - apply withStats_wordCount.
  - by apply withStats_other.
Qed.

(** ** The version routes ([routes/versionHistory.js]) *)

(** A number as [parseInt] returns it. *)
Inductive Num :=
| NaN
| Int (z : Z).

(** [parseInt(q)] for a query parameter destructured with a default: an
    absent parameter takes the default, a supplied one is given by what
    [parseInt] makes of its text. *)
Definition parseInt_or (default : Z) (q : option Num) : Num :=
  match q with
  | None => Int default
  | Some n => n
  end.

Definition Num_add (a b : Num) : Num :=
  match a, b with
  | Int x, Int y => Int (x + y)
  | _, _ => NaN
  end.

(** [a < n] for a number and an array length. *)
Definition Num_lt_length (a : Num) (n : nat) : bool :=
  match a with
  | Int x => x <? Z.of_nat n
  | NaN => false
  end.

(** The index an argument of [slice] stands for: [NaN] is 0, a negative
    number counts from the end, and the result stays within the array. *)
Definition sliceIndex (len : nat) (a : Num) : nat :=
  match a with
  | NaN => 0%nat
  | Int i =>
      Z.to_nat (if i <? 0 then Z.max (Z.of_nat len + i) 0 else Z.min i (Z.of_nat len))
  end.

(** [l.slice(start, end)]. *)
Definition Array_slice_range {A} (start end_ : Num) (l : list A) : list A :=
  let k := sliceIndex (length l) start in
  let final := sliceIndex (length l) end_ in
  take (final - k) (drop k l).

(** The JSON bodies of the responses. *)
Inductive Body :=
| ErrorBody (error : jsstring)
| VersionsBody (versions : list Version) (total : nat) (hasMore : bool)
| VersionBody (version : Version)
| ComparisonBody (comparison : Comparison)
| MessageBody (message : jsstring).

Record Response := mkResponse { status : Z; body : Body }.

(** A handler body inside [try], with the [catch] that answers 500. *)
Definition catching {A} (m : M A) (respond : A → Response) (error : jsstring)
  : Store → Response * Store :=
  fun st =>
    match m st with
    | (Ok a, st') => (respond a, st')
    | (Throw _, st') => (mkResponse 500 (ErrorBody error), st')
    end.

(** [GET /documents/:documentId/versions] *)
Definition listVersionsRoute (documentId : jsstring) (limit offset : option Num)
  : Store → Response * Store :=
  if falsy documentId
  then fun st => (mkResponse 400 (ErrorBody (lit "Document ID is required")), st)
  else
    catching (getVersions documentId)
      (fun versions =>
         let startIndex := parseInt_or 0 offset in
         let endIndex := Num_add startIndex (parseInt_or 50 limit) in
         let paginatedVersions := Array_slice_range startIndex endIndex versions in
         mkResponse 200
           (VersionsBody paginatedVersions (length versions)
              (Num_lt_length endIndex (length versions))))
      (lit "Failed to fetch versions").

(** [GET /documents/:documentId/versions/:versionId] *)
Definition getVersionRoute (documentId versionId : jsstring)
  : Store → Response * Store :=
  if falsy documentId || falsy versionId
  then fun st =>
         (mkResponse 400 (ErrorBody (lit "Document ID and version ID are required")), st)
  else
    catching (getVersion documentId versionId)
      (fun version =>
         match version with
         | None => mkResponse 404 (ErrorBody (lit "Version not found"))
         | Some v => mkResponse 200 (VersionBody v)
         end)
      (lit "Failed to fetch version").

(** [POST /documents/:documentId/versions] for a parsed JSON body:
    [content], [userId] and [action] are the members of the body,
    [undefined] when absent; an absent [metadata] takes the default of
    [saveVersion]. *)
Definition saveVersionRoute (documentId : jsstring) (content userId action : JsValue)
    (metadata : option (gmap jsstring MetaValue)) (clock : Clock)
  : Store → Response * Store :=
  if falsy documentId || negb (ToBoolean content)
  then fun st =>
         (mkResponse 400 (ErrorBody (lit "Document ID and content are required")), st)
  else
    catching
      (saveVersion purify escape documentId content userId action
         (default ∅ metadata) clock)
      (fun version => mkResponse 201 (VersionBody version))
      (lit "Failed to save version").

(** A member of the body that is a string, or absent. *)
Definition member (text : option jsstring) : JsValue :=
  match text with
  | Some s => JsString s
  | None => JsUndefined
  end.

(** [POST /documents/:documentId/versions/:versionId/restore] *)
Definition restoreVersionRoute (documentId versionId : jsstring) (userId : JsValue)
    (clock : Clock) : Store → Response * Store :=
  if falsy documentId || falsy versionId
  then fun st =>
         (mkResponse 400 (ErrorBody (lit "Document ID and version ID are required")), st)
  else
    catching (restoreVersion purify escape documentId versionId userId clock)
      (fun restoredVersion => mkResponse 200 (VersionBody restoredVersion))
      (lit "Failed to restore version").

(** [GET /documents/:documentId/versions/:versionId1/compare/:versionId2] *)
Definition compareVersionsRoute (documentId versionId1 versionId2 : jsstring)
  : Store → Response * Store :=
  if falsy documentId || falsy versionId1 || falsy versionId2
  then fun st =>
         (mkResponse 400
            (ErrorBody (lit "Document ID and both version IDs are required")), st)
  else
    catching (compareVersions documentId versionId1 versionId2)
      (fun comparison => mkResponse 200 (ComparisonBody comparison))
      (lit "Failed to compare versions").

(** [cleanupOldVersions(documentId, keepCount)] for what [parseInt]
    returns: with [NaN] the test [versions.length <= keepCount] is false
    and [slice(-NaN)] is [slice(0)], a copy of the array. *)
Definition cleanupOldVersions_Num (documentId : jsstring) (keepCount : Num) : M unit :=
  match keepCount with
  | Int k => cleanupOldVersions documentId k
  | NaN =>
      if falsy documentId then throw DocumentIdRequired
      else
        let* st := getStore in
        match st !! documentId with
        | None => ret tt
        | Some versions =>
            let recentVersions := Array_slice 0 versions in
            putStore (<[documentId := recentVersions]> st)
        end
  end.

(** [DELETE /documents/:documentId/versions/cleanup] *)
Definition cleanupRoute (documentId : jsstring) (keepCount : option Num)
  : Store → Response * Store :=
  if falsy documentId
  then fun st => (mkResponse 400 (ErrorBody (lit "Document ID is required")), st)
  else
    catching (cleanupOldVersions_Num documentId (parseInt_or 10 keepCount))
      (fun _ => mkResponse 200 (MessageBody (lit "Old versions cleaned up successfully")))
      (lit "Failed to clean up old versions").

Definition pageOf (r : Response) : list Version :=
  match body r with
  | VersionsBody versions _ _ => versions
  | _ => []
  end.

Lemma Array_slice_range_nonneg {A} (start count : Z) (l : list A) :
  0 ≤ start → 0 ≤ count →
  Array_slice_range (Int start) (Int (start + count)) l
  = take (Z.to_nat count) (drop (Z.to_nat start) l).
Proof.
  intros Hs Hc. unfold Array_slice_range, sliceIndex.
  destruct (start <? 0) eqn:E1; [apply Z.ltb_lt in E1; lia|].
  destruct (start + count <? 0) eqn:E2; [apply Z.ltb_lt in E2; lia|].
  destruct (decide (Z.of_nat (length l) ≤ start)) as [Hge|Hlt].
  - rewrite !drop_ge by lia. by rewrite !take_nil.
  - rewrite (Z.min_l start) by lia.
    destruct (decide (start + count ≤ Z.of_nat (length l))).
    + rewrite Z.min_l by lia. f_equal. lia.
    + rewrite Z.min_r by lia.
      rewrite !take_ge; [done|rewrite length_drop; lia|rewrite length_drop; lia].
Qed.

Lemma Array_sort_length {A} (compareFn : A → A → Z) (l : list A) :
  length (Array_sort compareFn l) = length l.
Proof. apply Permutation_length, Array_sort_perm. Qed.

Lemma listVersionsRoute_eq st d (limit offset : Z) :
  d ≠ [] → 0 ≤ offset → 0 ≤ limit →
  listVersionsRoute d (Some (Int limit)) (Some (Int offset)) st
  = (mkResponse 200
       (VersionsBody
          (take (Z.to_nat limit)
             (drop (Z.to_nat offset) (Array_sort byTimestampDesc (default [] (st !! d)))))
          (length (default [] (st !! d)))
          (offset + limit <? Z.of_nat (length (default [] (st !! d))))),
     (getVersions d st).2).
Proof.
  intros Hd Ho Hl. unfold listVersionsRoute, catching.
  rewrite falsy_false by done. rewrite getVersions_ok by done. cbn [snd].
  cbn [parseInt_or Num_add Num_lt_length].
  rewrite Array_slice_range_nonneg by done.
  by rewrite Array_sort_length.
Qed.

(** X17.  For a non-empty document id, an offset and a limit that are
    not negative, the list route answers 200 with the revisions from
    position offset on, at most limit of them, of the newest-first
    listing, with the total count and with hasMore telling whether
    revisions remain after the page. *)
Theorem listVersionsRoute_page (st : Store) (d : jsstring) (limit offset : Z) :
  d ≠ [] → 0 ≤ offset → 0 ≤ limit →
  let listing := Array_sort byTimestampDesc (default [] (st !! d)) in
  (listVersionsRoute d (Some (Int limit)) (Some (Int offset)) st).1
  = mkResponse 200
      (VersionsBody (take (Z.to_nat limit) (drop (Z.to_nat offset) listing))
         (length listing)
         (bool_decide (Z.to_nat offset + Z.to_nat limit < length listing)%nat)).
Proof.
  intros Hd Ho Hl listing. rewrite listVersionsRoute_eq by done. cbn [fst].
  subst listing. rewrite Array_sort_length. do 2 f_equal.
  destruct (offset + limit <? _) eqn:E.
  - apply Z.ltb_lt in E. rewrite bool_decide_eq_true_2; [done|lia].
  - apply Z.ltb_ge in E. rewrite bool_decide_eq_false_2; [done|lia].
Qed.

(** X18.  Consecutive pages tile the listing: the page at offset o of
    size n, followed by the page at offset o + n of size m requested
    next, is the page at offset o of size n + m. *)
Theorem listVersionsRoute_consecutive_pages
    (st : Store) (d : jsstring) (o n m : Z) :
  d ≠ [] → 0 ≤ o → 0 ≤ n → 0 ≤ m →
  let first := listVersionsRoute d (Some (Int n)) (Some (Int o)) st in
  let second := listVersionsRoute d (Some (Int m)) (Some (Int (o + n))) first.2 in
  pageOf first.1 ++ pageOf second.1
  = pageOf (listVersionsRoute d (Some (Int (n + m))) (Some (Int o)) st).1.
Proof.
  intros Hd Ho Hn Hm first second. subst first second.
  rewrite !listVersionsRoute_eq by (done || lia). cbn [fst snd pageOf body].
  pose proof (getVersions_ok st d Hd) as Hg.
  assert (Hsame : Array_sort byTimestampDesc (default [] ((getVersions d st).2 !! d))
                  = Array_sort byTimestampDesc (default [] (st !! d))).
  { rewrite Hg. cbn [snd]. destruct (st !! d) as [log|] eqn:Hlog.
    - rewrite lookup_insert_eq. cbv [default from_option id].
      apply Array_sort_sorted_id, Array_sort_sorted.
    - by rewrite Hlog. }
  rewrite Hsame.
  set (l := Array_sort byTimestampDesc (default [] (st !! d))).
  rewrite !Z2Nat.inj_add by lia.
  rewrite <-drop_drop.
  set (l' := drop (Z.to_nat o) l).
  apply take_take_drop.
Qed.

(** X19.  Along every run, the list route called without limit and offset
    answers with every revision of the document, newest first, and with
    hasMore false: the default page size is the retention cap. *)
Theorem listVersionsRoute_default_page (ops : list Op) (d : jsstring) :
  d ≠ [] →
  let st := (run purify escape ops).1 in
  (listVersionsRoute d None None st).1
  = mkResponse 200
      (VersionsBody (Array_sort byTimestampDesc (default [] (st !! d)))
         (length (default [] (st !! d))) false).
Proof.
  intros Hd st. unfold listVersionsRoute, catching.
  rewrite falsy_false by done. rewrite getVersions_ok by done. cbn [fst].
  cbn [parseInt_or Num_add Num_lt_length]. change (0 + 50) with 50.
  pose proof (retention_cap_never_exceeded purify escape ops d) as Hcap.
  fold st in Hcap.
  assert (Hlen : (length (default [] (st !! d)) ≤ 50)%nat).
  { destruct (st !! d) as [log|]; simpl; [by apply Hcap|lia]. }
  rewrite (Array_slice_range_nonneg 0 50) by lia.
  rewrite drop_0, take_ge by (rewrite Array_sort_length; lia).
  rewrite Array_sort_length. do 3 f_equal.
  apply Z.ltb_ge. lia.
Qed.

(** X20.  When the offset or the limit of the list route is not a number,
    the page is empty and hasMore is false, while the total is still the
    number of revisions. *)
Theorem listVersionsRoute_not_a_number
    (st : Store) (d : jsstring) (limit offset : option Num) :
  d ≠ [] → limit = Some NaN ∨ offset = Some NaN →
  (listVersionsRoute d limit offset st).1
  = mkResponse 200 (VersionsBody [] (length (default [] (st !! d))) false).
Proof.
  intros Hd Hnan. unfold listVersionsRoute, catching.
  rewrite falsy_false by done. rewrite getVersions_ok by done. cbn [fst].
  rewrite Array_sort_length.
  assert (Hend : Num_add (parseInt_or 0 offset) (parseInt_or 50 limit) = NaN).
  { destruct Hnan as [-> | ->]; simpl; [by destruct (parseInt_or 0 offset)|done]. }
  rewrite Hend. unfold Array_slice_range. cbn [sliceIndex Num_lt_length].
  by rewrite Nat.sub_0_l, take_0.
Qed.

(** X21.  For non-empty ids of which the version id is carried by no
    revision of the document, the fetch route answers 404 'Version not
    found', while the restore route and the compare route answer 500; the
    store is left as it was by all three. *)
Theorem absent_version_status
    (st : Store) (d versionId other : jsstring) (u : JsValue) (clock : Clock) :
  d ≠ [] → versionId ≠ [] → other ≠ [] →
  (∀ v, v ∈ default [] (st !! d) → v_id v ≠ versionId) →
  getVersionRoute d versionId st
  = (mkResponse 404 (ErrorBody (lit "Version not found")), st) ∧
  restoreVersionRoute d versionId u clock st
  = (mkResponse 500 (ErrorBody (lit "Failed to restore version")), st) ∧
  compareVersionsRoute d versionId other st
  = (mkResponse 500 (ErrorBody (lit "Failed to compare versions")), st) ∧
  compareVersionsRoute d other versionId st
  = (mkResponse 500 (ErrorBody (lit "Failed to compare versions")), st).
Proof.
  intros Hd Hv Ho Habsent. apply find_version_None in Habsent.
  unfold getVersionRoute, restoreVersionRoute, compareVersionsRoute, catching.
  rewrite !falsy_false by done. cbn [orb].
  rewrite restoreVersion_not_found by done.
  unfold getVersion, compareVersions, bind, getStore, ret, throw.
  rewrite !falsy_false by done. cbn [orb]. rewrite Habsent.
  split_and!; try done.
  by destruct (find_version other (default [] (st !! d))).
Qed.

(** X22.  For a body whose members are strings or absent, the list,
    fetch, save and cleanup routes never answer 500: the checks they make
    before calling the service are the ones for which the service
    throws.  The save route answers 201 exactly when the document id and
    the content are non-empty, and 400 otherwise, leaving the store
    untouched. *)
Theorem routes_never_answer_500
    (st : Store) (d versionId : jsstring) (limit offset keepCount : option Num)
    (content u a : option jsstring) (m : option (gmap jsstring MetaValue))
    (clock : Clock) :
  status (listVersionsRoute d limit offset st).1 ≠ 500 ∧
  status (getVersionRoute d versionId st).1 ≠ 500 ∧
  status (cleanupRoute d keepCount st).1 ≠ 500 ∧
  (let r := saveVersionRoute d (member content) (member u) (member a) m clock st in
   (status r.1 = 201 ↔ d ≠ [] ∧ ∃ c, content = Some c ∧ c ≠ []) ∧
   (status r.1 = 201 ∨ status r.1 = 400 ∧ r.2 = st)).
Proof.
  split_and!.
  - unfold listVersionsRoute, catching, getVersions, bind, getStore, putStore, ret.
    destruct (falsy d); [done|]. simpl. by destruct (st !! d).
  - unfold getVersionRoute, catching.
    destruct (falsy d || falsy versionId) eqn:E; [done|].
    unfold getVersion, bind, getStore, ret. rewrite E.
    by destruct (find_version versionId (default [] (st !! d))).
  - unfold cleanupRoute, catching, cleanupOldVersions_Num, cleanupOldVersions,
      bind, getStore, putStore, ret.
    destruct (falsy d) eqn:E; [done|].
    destruct (parseInt_or 10 keepCount) as [|k]; rewrite ?E; simpl.
    + by destruct (st !! d).
    + destruct (st !! d) as [log|]; [|done].
      by destruct (Z.of_nat (length log) <=? k).
  - unfold saveVersionRoute.
    destruct content as [c|]; cbn [member ToBoolean negb].
    2: { rewrite orb_true_r. split; [split; [done|by intros (_ & ? & ? & _)]|by right]. }
    rewrite negb_involutive.
    destruct (falsy d || falsy c) eqn:E.
    + split; [|by right]. split; [done|].
      intros (Hd & c' & [= <-] & Hc). by rewrite !falsy_false in E.
    + apply orb_false_elim in E as [Hd Hc]. unfold catching.
      rewrite saveVersion_ok by first [by destruct d|by destruct c].
      split; [|by left]. split; [|done]. intros _.
      split; [by destruct d|]. exists c. split; [done|by destruct c].
Qed.

(** X23.  A cleanup request whose keepCount is not a number answers 200
    and leaves the store as it was. *)
Theorem cleanupRoute_not_a_number (st : Store) (d : jsstring) :
  d ≠ [] →
  cleanupRoute d (Some NaN) st
  = (mkResponse 200 (MessageBody (lit "Old versions cleaned up successfully")), st).
Proof.
  intros Hd. unfold cleanupRoute, catching, cleanupOldVersions_Num,
    bind, getStore, putStore, ret.
  rewrite falsy_false by done. simpl.
  destruct (st !! d) as [log|] eqn:Hlog; [|done]. simpl.
  rewrite (Array_slice_neg_zero log : Array_slice 0 log = log). by rewrite insert_id.
Qed.

(** ** The rest of the export service *)

(** [JSON.stringify] of an array of strings. *)
Variable JSON_stringify : list jsstring → jsstring.

(** [s.replace(/c/g, replacement)] for a pattern of one character. *)
Definition replace_char (c : N) (replacement s : jsstring) : jsstring :=
  concat ((λ x, if (x =? c)%N then replacement else [x]) <$> s).

(** The escaping in [createSimpleDOCX]:
    [content.replace(/&/g, '&amp;').replace(/</g, '&lt;').replace(/>/g, '&gt;')]. *)
Definition xmlEscape (content : jsstring) : jsstring :=
  replace_char 62 (lit "&gt;")
    (replace_char 60 (lit "&lt;")
       (replace_char 38 (lit "&amp;") content)).

(** [createSimplePDF]: the title, an empty line and the content; the
    author is read and not used. *)
Definition createSimplePDF (content : jsstring) (options : ExportOptions) : jsstring :=
  let title := orElse (title options) (lit "Exported Document") in
  title ++ [LF; LF] ++ content.

(** [createSimpleDOCX] *)
Definition createSimpleDOCX (content : jsstring) (options : ExportOptions) : jsstring :=
  let title := orElse (title options) (lit "Exported Document") in
  lit "<?xml version=" ++ [quot] ++ lit "1.0" ++ [quot]
  ++ lit " encoding=" ++ [quot] ++ lit "UTF-8" ++ [quot]
  ++ lit " standalone=" ++ [quot] ++ lit "yes" ++ [quot] ++ lit "?>" ++ [LF]
  ++ lit "<w:document xmlns:w=" ++ [quot]
  ++ lit "http://schemas.openxmlformats.org/wordprocessingml/2006/main"
  ++ [quot] ++ lit ">" ++ [LF]
  ++ lit "  <w:body>" ++ [LF]
  ++ lit "    <w:p>" ++ [LF]
  ++ lit "      <w:r>" ++ [LF]
  ++ lit "        <w:t>" ++ title ++ lit "</w:t>" ++ [LF]
  ++ lit "      </w:r>" ++ [LF]
  ++ lit "    </w:p>" ++ [LF]
  ++ lit "    <w:p>" ++ [LF]
  ++ lit "      <w:r>" ++ [LF]
  ++ lit "        <w:t>" ++ xmlEscape content ++ lit "</w:t>" ++ [LF]
  ++ lit "      </w:r>" ++ [LF]
  ++ lit "    </w:p>" ++ [LF]
  ++ lit "  </w:body>" ++ [LF]
  ++ lit "</w:document>".

(** The errors of the two exporters to a file. *)
Inductive ExportFailure :=
| FailedToExportToPDF
| FailedToExportToDOCX.

(** What an exporter to a file produces: the text written to the
    temporary file, and the result object without [filePath] and [size]. *)
Record FileExport := mkFileExport {
  x_filename : jsstring;
  x_contentType : jsstring;
  x_written : jsstring
}.

Definition exportToPDF (content : jsstring) (options : ExportOptions)
    (env : ExportEnv) : ExportFailure + FileExport :=
  let sanitizedContent := sanitizeInput purify escape (JsString content) in
  let filename := generateFilename env (lit "pdf") in
  let pdfContent := createSimplePDF sanitizedContent options in
  if writeFile_ok env
  then inr {| x_filename := filename;
              x_contentType := lit "application/pdf";
              x_written := pdfContent |}
  else inl FailedToExportToPDF.

Definition exportToDOCX (content : jsstring) (options : ExportOptions)
    (env : ExportEnv) : ExportFailure + FileExport :=
  let sanitizedContent := sanitizeInput purify escape (JsString content) in
  let filename := generateFilename env (lit "docx") in
  let docxContent := createSimpleDOCX sanitizedContent options in
  if writeFile_ok env
  then inr {| x_filename := filename;
              x_contentType :=
                lit "application/vnd.openxmlformats-officedocument.wordprocessingml.document";
              x_written := docxContent |}
  else inl FailedToExportToDOCX.

Record FormatInfo := mkFormatInfo {
  fmt_format : jsstring;
  fmt_name : jsstring;
  fmt_extension : jsstring;
  fmt_mimeType : jsstring;
  fmt_description : jsstring
}.

Definition getSupportedFormats : list FormatInfo :=
  [ mkFormatInfo (lit "pdf") (lit "PDF") (lit ".pdf") (lit "application/pdf")
      (lit "Portable Document Format");
    mkFormatInfo (lit "docx") (lit "Word Document") (lit ".docx")
      (lit "application/vnd.openxmlformats-officedocument.wordprocessingml.document")
      (lit "Microsoft Word document");
    mkFormatInfo (lit "markdown") (lit "Markdown") (lit ".md") (lit "text/markdown")
      (lit "Markdown formatted text");
    mkFormatInfo (lit "txt") (lit "Plain Text") (lit ".txt") (lit "text/plain")
      (lit "Plain text file") ].

(** ** The export route ([routes/export.js]) *)

(** The answer of [POST /export]: the file sent for download, with the
    [Content-Disposition] file name and the [Content-Type], or an error. *)
Inductive ExportResponse :=
| Download (filename contentType payload : jsstring)
| ExportError (status : Z) (error : jsstring).

(** The file an exporter wrote, as the route reads it back. *)
Definition ofFileExport (r : ExportFailure + FileExport) : option FileExport :=
  match r with
  | inr x => Some x
  | inl _ => None
  end.

Definition ofExportResult (r : result ExportResult) : option FileExport :=
  match r with
  | Ok x => Some (mkFileExport (e_filename x) (e_contentType x) (e_content x))
  | Throw _ => None
  end.

(** [POST /export].  An absent [options] is the empty object; [None] from
    an exporter is its exception, caught at the end of the handler, as is
    a failure of [readFile]. *)
Definition exportRoute (content format : option jsstring) (options : option ExportOptions)
    (env : ExportEnv) (readFile_ok : bool) : ExportResponse :=
  let options := default (mkExportOptions false false None None None None) options in
  match content, format with
  | Some content, Some format =>
      if falsy content || falsy format
      then ExportError 400 (lit "Content and format are required")
      else
        match List.find (fun f => bool_decide (fmt_format f = format)) getSupportedFormats with
        | None => ExportError 400 (lit "Unsupported export format")
        | Some formatConfig =>
            let exported (exportResult : option FileExport) :=
              match exportResult with
              | None => ExportError 500 (lit "Failed to export content")
              | Some x =>
                  if readFile_ok
                  then Download (x_filename x) (x_contentType x) (x_written x)
                  else ExportError 500 (lit "Failed to export content")
              end in
            if bool_decide (format = lit "pdf")
            then exported (ofFileExport (exportToPDF content options env))
            else if bool_decide (format = lit "docx")
            then exported (ofFileExport (exportToDOCX content options env))
            else if bool_decide (format = lit "markdown")
            then exported (ofExportResult
                             (exportToMarkdown purify escape JSON_stringify content options env))
            else if bool_decide (format = lit "txt")
            then exported (ofExportResult (exportToText purify escape content options env))
            else ExportError 400 (lit "Unsupported export format")
        end
  | _, _ => ExportError 400 (lit "Content and format are required")
  end.

Lemma dashed_spec iso :
  length (dashed iso) = length iso ∧ (58%N ∉ dashed iso) ∧ (46%N ∉ dashed iso).
Proof.
  unfold dashed. split; [apply length_fmap|].
  split; intros (c & Hc & _)%list_elem_of_fmap;
    destruct (c =? 58)%N eqn:E1, (c =? 46)%N eqn:E2; simpl in Hc; try done;
    apply N.eqb_neq in E1, E2; congruence.
Qed.

(** X24.  A generated file name is [export-], a stamp, a dot and the
    extension, where the stamp is the ISO time with every colon and every
    dot replaced by a hyphen and every other character kept in place: the
    stamp has the length of the ISO time and contains neither colon nor
    dot. *)
Theorem generateFilename_shape (env : ExportEnv) (extension : jsstring) :
  ∃ stamp,
    generateFilename env extension = lit "export-" ++ stamp ++ lit "." ++ extension ∧
    length stamp = length (filenameISOString env) ∧
    (58%N ∉ stamp) ∧ (46%N ∉ stamp) ∧
    ∀ i c, filenameISOString env !! i = Some c →
           stamp !! i = Some (if bool_decide (c = 58%N ∨ c = 46%N) then 45%N else c).
Proof.
  exists (dashed (filenameISOString env)).
  destruct (dashed_spec (filenameISOString env)) as (Hl & Hc & Hd).
  split_and!; try done.
  intros i c Hi. unfold dashed. rewrite list_lookup_fmap, Hi. simpl. f_equal.
  case_bool_decide as H.
  - by destruct H as [-> | ->].
  - destruct (c =? 58)%N eqn:E1; [apply N.eqb_eq in E1; tauto|].
    destruct (c =? 46)%N eqn:E2; [apply N.eqb_eq in E2; tauto|]. done.
Qed.

(** The escaping, one character at a time. *)
Definition xmlEscape_char (c : N) : jsstring :=
  if (c =? 38)%N then lit "&amp;"
  else if (c =? 60)%N then lit "&lt;"
  else if (c =? 62)%N then lit "&gt;"
  else [c].

Lemma replace_char_app c r s t :
  replace_char c r (s ++ t) = replace_char c r s ++ replace_char c r t.
Proof. unfold replace_char. by rewrite fmap_app, concat_app. Qed.

Lemma replace_char_concat c r (ls : list jsstring) :
  replace_char c r (concat ls) = concat (replace_char c r <$> ls).
Proof.
  induction ls as [|l ls IH]; [done|].
  simpl. by rewrite replace_char_app, IH.
Qed.

Lemma xmlEscape_by_char s : xmlEscape s = concat (xmlEscape_char <$> s).
Proof.
  unfold xmlEscape. unfold replace_char at 3.
  rewrite !replace_char_concat, <-!list_fmap_compose. f_equal.
  apply list_fmap_ext. intros _ c _. simpl. unfold xmlEscape_char.
  destruct (c =? 38)%N eqn:E1; [done|].
  unfold replace_char at 2. simpl.
  destruct (c =? 60)%N eqn:E2; [done|].
  unfold replace_char. simpl. rewrite app_nil_r.
  by destruct (c =? 62)%N.
Qed.

Lemma xmlEscape_char_cases c :
  (c = 38%N ∧ xmlEscape_char c = lit "&amp;")
  ∨ (c = 60%N ∧ xmlEscape_char c = lit "&lt;")
  ∨ (c = 62%N ∧ xmlEscape_char c = lit "&gt;")
  ∨ (c ≠ 38%N ∧ c ≠ 60%N ∧ c ≠ 62%N ∧ xmlEscape_char c = [c]).
Proof.
  unfold xmlEscape_char.
  destruct (c =? 38)%N eqn:E1; [apply N.eqb_eq in E1; by left|].
  destruct (c =? 60)%N eqn:E2; [apply N.eqb_eq in E2; by right; left|].
  destruct (c =? 62)%N eqn:E3; [apply N.eqb_eq in E3; by right; right; left|].
  apply N.eqb_neq in E1, E2, E3. by right; right; right.
Qed.

Lemma elem_of_concat {A} (x : A) (ls : list (list A)) :
  x ∈ concat ls ↔ ∃ l, l ∈ ls ∧ x ∈ l.
Proof.
  rewrite list_elem_of_In, in_concat. split; intros (l & H1 & H2); exists l.
  - by rewrite !list_elem_of_In.
  - by rewrite <-!list_elem_of_In.
Qed.

Lemma xmlEscape_inj s t : xmlEscape s = xmlEscape t → s = t.
Proof.
  rewrite !xmlEscape_by_char. revert t.
  induction s as [|c s IH]; intros [|c' t]; simpl.
  - done.
  - destruct (xmlEscape_char_cases c') as [[_ ->]|[[_ ->]|[[_ ->]|(_&_&_& ->)]]]; done.
  - destruct (xmlEscape_char_cases c) as [[_ ->]|[[_ ->]|[[_ ->]|(_&_&_& ->)]]]; done.
  - destruct (xmlEscape_char_cases c) as [[-> ->]|[[-> ->]|[[-> ->]|(?&?&?& ->)]]],
             (xmlEscape_char_cases c') as [[-> ->]|[[-> ->]|[[-> ->]|(?&?&?& ->)]]];
      simpl; intros Heq; simplify_eq/=; try done; f_equal; by apply IH.
Qed.

(** X25.  The escaping applied to the content of a DOCX export leaves no
    angle bracket, loses nothing (different contents have different
    escaped forms), and returns a content without ampersand and angle
    brackets unchanged. *)
Theorem xmlEscape_safe_and_lossless :
  (∀ s, (60%N ∉ xmlEscape s) ∧ (62%N ∉ xmlEscape s)) ∧
  (∀ s t, xmlEscape s = xmlEscape t → s = t) ∧
  (∀ s, 38%N ∉ s → 60%N ∉ s → 62%N ∉ s → xmlEscape s = s).
Proof.
  split_and!.
  - intros s. rewrite xmlEscape_by_char.
    split; intros (l & (c & -> & _)%list_elem_of_fmap & Hin)%elem_of_concat;
      destruct (xmlEscape_char_cases c) as [[_ H]|[[_ H]|[[_ H]|(?&?&?& H)]]];
      rewrite H in Hin;
      first [ apply list_elem_of_singleton in Hin; congruence
            | revert Hin; apply (bool_decide_unpack _); by vm_compute ].
  - apply xmlEscape_inj.
  - intros s H1 H2 H3. rewrite xmlEscape_by_char.
    induction s as [|c s IH]; [done|].
    apply not_elem_of_cons in H1 as [? ?], H2 as [? ?], H3 as [? ?].
    rewrite fmap_cons. cbn [concat]. rewrite IH by done.
    destruct (xmlEscape_char_cases c) as [[? _]|[[? _]|[[? _]|(_&_&_& ->)]]]; done.
Qed.

(** X26.  When the file is written, the PDF stand-in is the title (or
    'Exported Document'), an empty line and the sanitized content, and
    the DOCX skeleton holds the sanitized content in escaped form as a
    contiguous part between text tags; when the write fails, each of the
    two exporters throws its own error. *)
Theorem file_exports_hold_the_content
    (content : jsstring) (options : ExportOptions) (env : ExportEnv) :
  let sanitized := sanitizeInput purify escape (JsString content) in
  if writeFile_ok env then
    (∃ p, exportToPDF content options env = inr p ∧
          x_contentType p = lit "application/pdf" ∧
          x_written p
          = orElse (title options) (lit "Exported Document") ++ [LF; LF] ++ sanitized) ∧
    (∃ x before after,
        exportToDOCX content options env = inr x ∧
        x_written x
        = before ++ lit "<w:t>" ++ xmlEscape sanitized ++ lit "</w:t>" ++ after)
  else
    exportToPDF content options env = inl FailedToExportToPDF ∧
    exportToDOCX content options env = inl FailedToExportToDOCX.
Proof.
  intros sanitized. unfold exportToPDF, exportToDOCX.
  destruct (writeFile_ok env); [|done].
  split; [by eexists|].
  eexists _, _, _. split; [reflexivity|]. cbn [x_written].
  unfold createSimpleDOCX. fold sanitized.
  set (e := xmlEscape sanitized).
  match goal with
  | |- context [lit "        <w:t>" ++ e ++ ?r] =>
      change (lit "        <w:t>" ++ e ++ r)
        with (lit "        " ++ (lit "<w:t>" ++ e ++ r))
  end.
  rewrite !(app_assoc _ _ (lit "<w:t>" ++ e ++ _)).
  reflexivity.
Qed.

Lemma generateFilename_suffix env ext :
  (lit "." ++ ext) `suffix_of` generateFilename env ext.
Proof.
  unfold generateFilename. rewrite (app_assoc (lit "export-")).
  by eexists.
Qed.

(** X27.  For non-empty content and format and a file that is written
    and read back, [POST /export] answers every format of the catalog
    with a download whose content type is the MIME type the catalog gives
    for the format and whose file name ends with the catalog's extension;
    for any other format it answers 400 'Unsupported export format'. *)
Theorem exportRoute_follows_catalog
    (content format : jsstring) (options : option ExportOptions) (env : ExportEnv) :
  content ≠ [] → format ≠ [] → writeFile_ok env = true →
  match List.find (fun f => bool_decide (fmt_format f = format)) getSupportedFormats with
  | Some formatConfig =>
      ∃ name payload,
        exportRoute (Some content) (Some format) options env true
        = Download name (fmt_mimeType formatConfig) payload ∧
        fmt_extension formatConfig `suffix_of` name
  | None =>
      exportRoute (Some content) (Some format) options env true
      = ExportError 400 (lit "Unsupported export format")
  end.
Proof.
  intros Hc Hf Hw. unfold exportRoute.
  rewrite !falsy_false by done. cbn [orb].
  unfold exportToPDF, exportToDOCX, exportToMarkdown, exportToText. rewrite Hw.
  destruct (decide (format = lit "pdf")) as [->|H1].
  { eexists _, _. split; [reflexivity|]. apply (generateFilename_suffix env (lit "pdf")). }
  destruct (decide (format = lit "docx")) as [->|H2].
  { eexists _, _. split; [reflexivity|]. apply (generateFilename_suffix env (lit "docx")). }
  destruct (decide (format = lit "markdown")) as [->|H3].
  { eexists _, _. split; [reflexivity|]. apply (generateFilename_suffix env (lit "md")). }
  destruct (decide (format = lit "txt")) as [->|H4].
  { eexists _, _. split; [reflexivity|]. apply (generateFilename_suffix env (lit "txt")). }
  cbn [List.find getSupportedFormats fmt_format].
  by rewrite !bool_decide_eq_false_2 by done.
Qed.

(** X28.  For non-empty content and a format of the catalog, [POST
    /export] answers 500 'Failed to export content' whenever the file
    cannot be written or cannot be read back. *)
Theorem exportRoute_failure
    (content format : jsstring) (options : option ExportOptions) (env : ExportEnv)
    (readFile_ok : bool) :
  content ≠ [] →
  format ∈ fmt_format <$> getSupportedFormats →
  writeFile_ok env = false ∨ readFile_ok = false →
  exportRoute (Some content) (Some format) options env readFile_ok
  = ExportError 500 (lit "Failed to export content").
Proof.
  intros Hc Hf Hfail. unfold exportRoute.
  assert (Hne : format ≠ []).
  { intros ->. revert Hf. apply (bool_decide_unpack _). by vm_compute. }
  rewrite !falsy_false by done. cbn [orb].
  unfold exportToPDF, exportToDOCX, exportToMarkdown, exportToText.
  cbn [fmap list_fmap getSupportedFormats fmt_format] in Hf.
  repeat (apply elem_of_cons in Hf as [->|Hf]);
    [| | | |by apply elem_of_nil in Hf];
    cbn; destruct Hfail as [-> | ->]; try done; by destruct (writeFile_ok env).
Qed.

(** ** The upload check ([SecurityMiddleware.validateFileUpload]) *)

(** The fields of an uploaded file the check reads; an absent name is
    [None]. *)
Record UploadedFile := mkUploadedFile {
  up_mimetype : jsstring;
  up_size : Z;
  up_originalname : option jsstring;
  up_filename : option jsstring
}.

(** The errors thrown, with the values their messages quote. *)
Inductive UploadError :=
| NoFileProvided
| FileTypeNotAllowed (mimetype : jsstring)
| FileSizeExceeds (size : Z)
| InvalidFilename.

Definition allowedTypes : list jsstring :=
  [ lit "text/plain"; lit "text/markdown"; lit "application/json";
    lit "application/pdf"; lit "text/csv" ].

Definition maxSize : Z := 10 * 1024 * 1024.

(** [file.originalname || file.filename] *)
Definition uploadName (file : UploadedFile) : option jsstring :=
  match up_originalname file with
  | Some name => if falsy name then up_filename file else Some name
  | None => up_filename file
  end.

(** The character class [[a-zA-Z0-9._-]]. *)
Definition isNameChar (c : N) : bool :=
  ((97 <=? c) && (c <=? 122) || (65 <=? c) && (c <=? 90) || (48 <=? c) && (c <=? 57)
   || (c =? 46) || (c =? 95) || (c =? 45))%N.

(** [/^[a-zA-Z0-9._-]+$/.test(filename)]: [test] takes the string form of
    its argument, which for [undefined] is the word undefined. *)
Definition nameMatches (filename : option jsstring) : bool :=
  let text := default (lit "undefined") filename in
  negb (falsy text) && forallb isNameChar text.

(** [validateFileUpload(file)]; [inr tt] is the return of [true]. *)
Definition validateFileUpload (file : option UploadedFile) : UploadError + unit :=
  match file with
  | None => inl NoFileProvided
  | Some file =>
      if negb (bool_decide (up_mimetype file ∈ allowedTypes))
      then inl (FileTypeNotAllowed (up_mimetype file))
      else if maxSize <? up_size file
      then inl (FileSizeExceeds (up_size file))
      else if negb (nameMatches (uploadName file))
      then inl InvalidFilename
      else inr tt
  end.

(** X29.  [validateFileUpload] accepts a file exactly when its MIME type
    is one of the five allowed, its size is at most 10485760 and its name
    (the original name, or else the stored one, or else the word
    undefined) is non-empty and made of letters, digits, dots,
    underscores and hyphens only; so an accepted name has no slash, no
    backslash and no white space, and a file without any name is
    accepted.  A type that is not allowed is reported before the size,
    and the size before the name. *)
Theorem validateFileUpload_accepts (file : UploadedFile) :
  let name := default (lit "undefined") (uploadName file) in
  (validateFileUpload (Some file) = inr tt ↔
     up_mimetype file ∈ allowedTypes ∧ up_size file ≤ 10485760 ∧
     name ≠ [] ∧ ∀ c, c ∈ name → isNameChar c = true) ∧
  (validateFileUpload (Some file) = inr tt →
     (47%N ∉ name) ∧ (92%N ∉ name) ∧ ∀ c, c ∈ name → isWhiteSpace c = false) ∧
  (up_originalname file = None → up_filename file = None →
     up_mimetype file ∈ allowedTypes → up_size file ≤ 10485760 →
     validateFileUpload (Some file) = inr tt) ∧
  (up_mimetype file ∉ allowedTypes →
     validateFileUpload (Some file) = inl (FileTypeNotAllowed (up_mimetype file))) ∧
  (up_mimetype file ∈ allowedTypes → 10485760 < up_size file →
     validateFileUpload (Some file) = inl (FileSizeExceeds (up_size file))).
Proof.
  intros name.
  assert (Hiff : validateFileUpload (Some file) = inr tt ↔
     up_mimetype file ∈ allowedTypes ∧ up_size file ≤ 10485760 ∧
     name ≠ [] ∧ ∀ c, c ∈ name → isNameChar c = true).
  { unfold validateFileUpload, nameMatches. fold name.
    case_bool_decide as Ht; cbn [negb].
    2: { split; [done|]. by intros [? _]. }
    destruct (maxSize <? up_size file) eqn:Es.
    { apply Z.ltb_lt in Es. unfold maxSize in Es. split; [done|]. intros (_ & ? & _). lia. }
    apply Z.ltb_ge in Es. unfold maxSize in Es.
    destruct (falsy name) eqn:En; cbn [negb andb].
    { split; [done|]. intros (_ & _ & Hne & _). by destruct name. }
    destruct (forallb isNameChar name) eqn:Ef; cbn [negb].
    - split; [|done]. intros _. split_and!; [done|lia|by destruct name|].
      intros c Hc%list_elem_of_In. by apply (proj1 (forallb_forall _ _) Ef).
    - split; [done|]. intros (_ & _ & _ & Hall).
      assert (forallb isNameChar name = true); [|congruence].
      apply forallb_forall. intros c Hc%list_elem_of_In. by apply Hall. }
  split_and!.
  - exact Hiff.
  - intros (_ & _ & _ & Hall)%Hiff. split_and!.
    + intros Hin. by specialize (Hall _ Hin).
    + intros Hin. by specialize (Hall _ Hin).
    + intros c Hc. specialize (Hall c Hc).
      unfold isNameChar in Hall. unfold isWhiteSpace.
      apply not_true_is_false. intros Hw.
      repeat (apply orb_prop in Hw as [Hw|Hw] || apply andb_prop in Hw as [? Hw]);
        repeat match goal with
               | H : (_ <=? _)%N = true |- _ => apply N.leb_le in H
               | H : (_ =? _)%N = true |- _ => apply N.eqb_eq in H
               end; subst;
        try (by vm_compute in Hall);
        repeat (apply orb_prop in Hall as [Hall|Hall]
                || apply andb_prop in Hall as [? Hall]);
        repeat match goal with
               | H : (_ <=? _)%N = true |- _ => apply N.leb_le in H
               | H : (_ =? _)%N = true |- _ => apply N.eqb_eq in H
               end; lia.
  - intros Ho Hf Ht Hs. apply Hiff. subst name. unfold uploadName.
    rewrite Ho, Hf. split_and!; [done|done|done|].
    intros c Hc. revert c Hc. apply Forall_forall.
    apply (bool_decide_unpack _). by vm_compute.
  - intros Ht. unfold validateFileUpload. by rewrite bool_decide_eq_false_2.
  - intros Ht Hs. unfold validateFileUpload. rewrite bool_decide_eq_true_2 by done.
    cbn [negb]. destruct (maxSize <? up_size file) eqn:E; [done|].
    apply Z.ltb_ge in E. unfold maxSize in E. lia.
Qed.

End Coverage.

(** ** Sample calls for the properties above *)

Lemma throwing_call_changes_nothing_witness :
  let st : Store := {[ doc := [hello; hello_brave] ]} in
  exec plain_text validator_escape
    (OpRestoreVersion doc (lit "3") JsUndefined (mkClock 9 9)) st = st.
Proof.
  intros st.
  apply (throwing_call_changes_nothing plain_text validator_escape).
  vm_compute. by eexists.
Defined.

(** A run of calls on strings: a save with a user id, and a restore of
    the revision it made by a user whose id is absent. *)
Definition string_run : list Op :=
  [ OpSaveVersion doc (JsString (lit " it's; done ")) (JsString (lit " ann ")) JsUndefined ∅
      (mkClock 1 1);
    OpRestoreVersion doc (lit "1") JsNull (mkClock 2 2) ].

Lemma stored_revisions_are_sanitized_witness :
  ∃ log, (run plain_text validator_escape string_run).1 !! doc = Some log ∧
         v_content <$> log = [lit "its done"; lit "its done"] ∧
         v_userId <$> log = [lit "ann"; lit "anonymous"] ∧
         Forall (sanitized_revision doc) log.
Proof.
  pose proof (stored_revisions_are_sanitized plain_text validator_escape string_run
                ltac:(reflexivity)) as H.
  eexists. split; [vm_compute; reflexivity|].
  split; [by vm_compute|]. split; [by vm_compute|].
  refine (proj2 (H doc _ _)). vm_compute. reflexivity.
Defined.

Lemma compareVersions_of_stored_revisions_witness :
  match fst (compareVersions doc (lit "1") (lit "2")
               (run plain_text validator_escape
                  [ save_text "Hello world" (mkClock 1 1);
                    save_text "Hello brave world" (mkClock 2 2) ]).1) with
  | Ok c => differences c
            = mkDifferences [lit "Hello brave world"] [lit "Hello world"] 1 1 2
  | Throw _ => False
  end.
Proof.
  pose proof (compareVersions_of_stored_revisions plain_text validator_escape
                [ save_text "Hello world" (mkClock 1 1);
                  save_text "Hello brave world" (mkClock 2 2) ]
                doc (lit "1") (lit "2") ltac:(reflexivity)) as H.
  destruct (fst (compareVersions _ _ _ _)) as [c|e] eqn:E.
  - rewrite H. vm_compute in E. by injection E as <-.
  - vm_compute in E. discriminate E.
Defined.

Lemma getLatestVersion_after_saveVersion_witness :
  let st : Store := {[ doc := [hello; hello_brave] ]} in
  fst (getLatestVersion doc
         (saveVersion plain_text validator_escape doc (JsString (lit "x"))
            JsUndefined JsUndefined ∅ (mkClock 3 3) st).2)
  = Ok (Some (revision 3)).
Proof.
  intros st.
  apply (getLatestVersion_after_saveVersion plain_text validator_escape
           st doc (JsString (lit "x")) JsUndefined JsUndefined ∅ (mkClock 3 3));
    [done|done|].
  apply Forall_forall. apply (bool_decide_unpack _). by vm_compute.
Defined.

Lemma getVersion_after_getVersions_witness :
  let st : Store := {[ doc := [hello; hello_brave] ]} in
  fst (getVersion doc (lit "1") (getVersions doc st).2) = Ok (Some hello).
Proof.
  intros st.
  rewrite (getVersion_after_getVersions st doc (lit "1")); [done|].
  apply (bool_decide_unpack _). by vm_compute.
Defined.

Lemma getVersion_finds_older_holder_of_id_witness :
  let st : Store := {[ doc := [hello; hello_brave] ]} in
  fst (getVersion doc (lit "2")
         (saveVersion plain_text validator_escape doc (JsString (lit "x"))
            JsUndefined JsUndefined ∅ (mkClock 2 2) st).2)
  = Ok (Some hello_brave).
Proof.
  intros st.
  apply (getVersion_finds_older_holder_of_id plain_text validator_escape
           st doc (JsString (lit "x")) JsUndefined JsUndefined ∅ (mkClock 2 2)
           hello_brave);
    [done|done|vm_compute; lia|done].
Defined.

Lemma unknown_document_witness :
  let st : Store := {[ doc := [hello] ]} in
  getVersions (lit "other") st = (Ok [], st) ∧
  restoreVersion plain_text validator_escape (lit "other") (lit "1") JsUndefined
    (mkClock 2 2) st
  = (Throw VersionNotFound, st).
Proof.
  intros st.
  destruct (unknown_document plain_text validator_escape st (lit "other") (lit "1")
              (lit "2") JsUndefined (mkClock 2 2) 10
              ltac:(done) ltac:(done) ltac:(done) ltac:(done))
    as (H1 & _ & _ & _ & _ & H6).
  by split.
Defined.

Lemma cleanupOldVersions_keeps_a_suffix_witness :
  let st : Store := {[ doc := revision <$> seqZ 1 5 ]} in
  default [] ((cleanupOldVersions doc 2 st).2 !! doc) = [revision 4; revision 5] ∧
  default [] ((cleanupOldVersions doc (-2) st).2 !! doc)
  = [revision 3; revision 4; revision 5].
Proof.
  intros st.
  destruct (cleanupOldVersions_keeps_a_suffix st doc 2 ltac:(done))
    as (_ & _ & _ & H2 & _).
  destruct (cleanupOldVersions_keeps_a_suffix st doc (-2) ltac:(done))
    as (_ & _ & _ & _ & H3).
  split.
  - rewrite H2; [done|]. vm_compute. by split.
  - rewrite H3; [done|]. lia.
Defined.

Lemma cleanupOldVersions_after_listing_keeps_oldest_witness :
  let st : Store := {[ doc := revision <$> seqZ 1 5 ]} in
  ∃ discarded kept,
    (getVersions doc st).1 = Ok (discarded ++ kept) ∧
    (cleanupOldVersions doc 2 (getVersions doc st).2).2 !! doc = Some kept ∧
    length kept = 2%nat.
Proof.
  intros st.
  destruct (cleanupOldVersions_after_listing_keeps_oldest st doc 2 (revision <$> seqZ 1 5)
              ltac:(done) ltac:(done) ltac:(vm_compute; by split))
    as (discarded & kept & H1 & H2 & H3 & _).
  by exists discarded, kept.
Defined.

Lemma listVersionsRoute_page_witness :
  let st : Store := {[ doc := revision <$> seqZ 1 5 ]} in
  (listVersionsRoute doc (Some (Int 2)) (Some (Int 1)) st).1
  = mkResponse 200 (VersionsBody [revision 4; revision 3] 5 true).
Proof.
  intros st.
  rewrite (listVersionsRoute_page st doc 2 1 ltac:(done) ltac:(lia) ltac:(lia)).
  vm_compute. reflexivity.
Defined.

Lemma listVersionsRoute_consecutive_pages_witness :
  let st : Store := {[ doc := revision <$> seqZ 1 5 ]} in
  let first := listVersionsRoute doc (Some (Int 2)) (Some (Int 0)) st in
  let second := listVersionsRoute doc (Some (Int 2)) (Some (Int 2)) first.2 in
  pageOf first.1 ++ pageOf second.1
  = [revision 5; revision 4; revision 3; revision 2].
Proof.
  intros st first second. subst first second.
  etrans.
  { apply (listVersionsRoute_consecutive_pages st doc 0 2 2
             ltac:(done) ltac:(lia) ltac:(lia) ltac:(lia)). }
  vm_compute. reflexivity.
Defined.

Lemma listVersionsRoute_default_page_witness :
  (listVersionsRoute doc None None
     (run plain_text validator_escape (save_x <$> seqZ 1 3)).1).1
  = mkResponse 200 (VersionsBody [revision 3; revision 2; revision 1] 3 false).
Proof.
  rewrite (listVersionsRoute_default_page plain_text validator_escape
             (save_x <$> seqZ 1 3) doc ltac:(done)).
  vm_compute. reflexivity.
Defined.

Lemma listVersionsRoute_not_a_number_witness :
  let st : Store := {[ doc := revision <$> seqZ 1 5 ]} in
  (listVersionsRoute doc None (Some NaN) st).1
  = mkResponse 200 (VersionsBody [] 5 false).
Proof.
  intros st.
  apply (listVersionsRoute_not_a_number st doc None (Some NaN) ltac:(done)).
  by right.
Defined.

Lemma absent_version_status_witness :
  let st : Store := {[ doc := [hello; hello_brave] ]} in
  status (getVersionRoute doc (lit "3") st).1 = 404 ∧
  status (restoreVersionRoute plain_text validator_escape doc (lit "3") JsUndefined
            (mkClock 9 9) st).1 = 500.
Proof.
  intros st.
  assert (Habsent : ∀ v, v ∈ default [] (st !! doc) → v_id v ≠ lit "3").
  { apply Forall_forall. apply (bool_decide_unpack _). by vm_compute. }
  destruct (absent_version_status plain_text validator_escape st doc (lit "3") (lit "1")
              JsUndefined (mkClock 9 9) ltac:(done) ltac:(done) ltac:(done) Habsent)
    as (H1 & H2 & _).
  by rewrite H1, H2.
Defined.

Lemma cleanupRoute_not_a_number_witness :
  let st : Store := {[ doc := revision <$> seqZ 1 5 ]} in
  cleanupRoute doc (Some NaN) st
  = (mkResponse 200 (MessageBody (lit "Old versions cleaned up successfully")), st).
Proof. intros st. by apply cleanupRoute_not_a_number. Defined.

Definition sample_env : ExportEnv :=
  mkExportEnv (lit "2025-01-02T03:04:05.678Z") (lit "2025-01-02T03:04:05.678Z")
    (lit "1/2/2025") (lit "3:04:05 AM") true.

Lemma exportRoute_follows_catalog_witness :
  ∃ payload,
    exportRoute plain_text validator_escape stringify_empty
      (Some (lit "Hello")) (Some (lit "markdown")) None sample_env true
    = Download (lit "export-2025-01-02T03-04-05-678Z.md") (lit "text/markdown") payload.
Proof.
  pose proof (exportRoute_follows_catalog plain_text validator_escape stringify_empty
                (lit "Hello") (lit "markdown") None sample_env
                ltac:(done) ltac:(done) ltac:(done)) as H.
  cbn [List.find getSupportedFormats fmt_format] in H.
  destruct H as (name & payload & H & _).
  exists payload. rewrite H. vm_compute in H. by injection H as <- <-.
Defined.

Lemma exportRoute_failure_witness :
  exportRoute plain_text validator_escape stringify_empty
    (Some (lit "Hello")) (Some (lit "pdf")) None sample_env false
  = ExportError 500 (lit "Failed to export content").
Proof.
  apply exportRoute_failure; [done| |by right].
  apply (bool_decide_unpack _). by vm_compute.
Defined.
